(** * A shallow embedding of [auxlib.entity]

    The module [auxlib/entity.py] declares typed attribute descriptors
    ([Field] and its variants), a metaclass ([EntityType]) that collects
    them into a per-class registry, and the [Entity] base class
    (construction, validation, [create_from_objects], [load], [dump],
    equality and hashing).

    Modelling choices:
    - Python values are the inductive [val]; [VFun] is a zero-argument
      callable (identified by [id]) returning [ret].
    - An instance's [__dict__] is a [gmap string val]; the class registry
      [__fields__] is a [gmap string Field]; iteration over a dict is
      [map_to_list] (Python 2 dicts have no fixed iteration order).
    - Exceptions are the inductive [exn]; code that mutates the instance
      dictionary runs in a state-and-exception monad [SE] in which the
      store reached when an exception is raised is kept, as in Python.
    - [dateutil.parser.parse], [datetime.isoformat] and the builtin [hash]
      are library primitives: they are section variables. *)

From Stdlib Require Import ZArith QArith String Bool.
From stdpp Require Import base gmap strings list.

Open Scope string_scope.
Set Warnings "-register-all".

(** ** Python values *)

Record datetime := mk_datetime {
  dt_year : Z; dt_month : Z; dt_day : Z;
  dt_hour : Z; dt_minute : Z; dt_second : Z; dt_microsecond : Z }.

Inductive val :=
| VNone
| VBool (b : bool)
| VInt (z : Z)                         (* int / long *)
| VFloat (q : Q)
| VStr (s : string)
| VDate (d : datetime)                 (* datetime.datetime *)
| VList (l : list val)
| VTuple (l : list val)
| VMember (cls : string) (name : string) (raw : val)   (* an Enum member *)
| VFun (id : positive) (ret : val).    (* a zero-argument callable *)

(** An enumeration class: its name (identity) and its canonical members
    with their underlying values, in declaration order. *)
Record enum_class := mk_enum { e_name : string; e_members : list (string * val) }.

Definition is_none (v : val) : bool := match v with VNone => true | _ => false end.

(** [callable(v)] and [v() if callable(v) else v]. *)
Definition callable (v : val) : bool := match v with VFun _ _ => true | _ => false end.
Definition call (v : val) : val := match v with VFun _ r => r | _ => v end.

Definition dt_eqb (a b : datetime) : bool :=
  Z.eqb (dt_year a) (dt_year b) && Z.eqb (dt_month a) (dt_month b) &&
  Z.eqb (dt_day a) (dt_day b) && Z.eqb (dt_hour a) (dt_hour b) &&
  Z.eqb (dt_minute a) (dt_minute b) && Z.eqb (dt_second a) (dt_second b) &&
  Z.eqb (dt_microsecond a) (dt_microsecond b).

(** Numeric view: [bool] is a subclass of [int]; ints and floats compare
    by value. *)
Definition num_of (v : val) : option Q :=
  match v with
  | VBool b => Some (if b then 1%Q else 0%Q)
  | VInt z => Some (inject_Z z)
  | VFloat q => Some q
  | _ => None
  end.

(** Python 2 [==] on these values.  Enum members and functions compare
    by identity. *)
Fixpoint py_eq (a b : val) : bool :=
  let fix eq_seq (l m : list val) : bool :=
    match l, m with
    | [], [] => true
    | x :: l', y :: m' => py_eq x y && eq_seq l' m'
    | _, _ => false
    end in
  match a, b with
  | VNone, VNone => true
  | VStr s, VStr t => String.eqb s t
  | VDate d, VDate e => dt_eqb d e
  | VList l, VList m => eq_seq l m
  | VTuple l, VTuple m => eq_seq l m
  | VMember c n _, VMember c' n' _ => String.eqb c c' && String.eqb n n'
  | VFun i _, VFun j _ => Pos.eqb i j
  | _, _ =>
      match num_of a, num_of b with
      | Some x, Some y => Qeq_bool x y
      | _, _ => false
      end
  end.

(** Whether [hash(v)] succeeds: a list is unhashable, and so is a tuple
    holding one; enum members hash by name, functions by identity. *)
Fixpoint hashable (v : val) : bool :=
  let fix hashable_seq (l : list val) : bool :=
    match l with
    | [] => true
    | x :: l' => hashable x && hashable_seq l'
    end in
  match v with
  | VList _ => false
  | VTuple l => hashable_seq l
  | _ => true
  end.

(** ** Declared types and [isinstance] *)

Inductive ftype :=
| TInts                  (* (int, long) *)
| TString                (* basestring *)
| TNumber                (* (int, long, float, complex) *)
| TDatetime              (* datetime.datetime *)
| TEnum (e : enum_class) (* an Enum subclass *)
| TTuple.                (* tuple *)

Definition isinstance (v : val) (t : ftype) : bool :=
  match t, v with
  | TInts, (VBool _ | VInt _) => true
  | TString, VStr _ => true
  | TNumber, (VBool _ | VInt _ | VFloat _) => true
  | TDatetime, VDate _ => true
  | TEnum e, VMember c _ _ => String.eqb c (e_name e)
  | TTuple, VTuple _ => true
  | _, _ => false
  end.

(** ** Exceptions and the error monad *)

Inductive exn :=
| ValidationError (key : option string) (value : option val)
                  (valid_types : option ftype) (msg : option string)
| AttributeError (msg : string)
| ValueError (msg : string)
| TypeError (msg : string).

Inductive result (A : Type) := Ok (a : A) | Err (e : exn).
Arguments Ok {A} a.
Arguments Err {A} e.

Definition rbind {A B} (m : result A) (k : A -> result B) : result B :=
  match m with Ok a => k a | Err e => Err e end.

Notation "'let?' x := m 'in' k" := (rbind m (fun x => k))
  (at level 200, x name, m at level 100, k at level 200).

Fixpoint mapR {A B} (f : A -> result B) (l : list A) : result (list B) :=
  match l with
  | [] => Ok []
  | x :: l' => let? y := f x in let? ys := mapR f l' in Ok (y :: ys)
  end.

(** The state-and-exception monad over an instance's [__dict__]: an
    exception keeps the store reached when it was raised. *)
Abbreviation store := (gmap string val).
Definition SE (A : Type) := store -> store * result A.

Definition sret {A} (a : A) : SE A := fun s => (s, Ok a).
Definition sbind {A B} (m : SE A) (k : A -> SE B) : SE B :=
  fun s => match m s with
           | (s', Ok a) => k a s'
           | (s', Err e) => (s', Err e)
           end.
Definition lift {A} (r : result A) : SE A := fun s => (s, r).
Definition modify (g : store -> store) : SE unit := fun s => (g s, Ok tt).
(** [try: m except ...: h e] *)
Definition catch {A} (m : SE A) (h : exn -> SE A) : SE A :=
  fun s => match m s with
           | (s', Err e) => h e s'
           | r => r
           end.

Notation "'let!' x := m 'in' k" := (sbind m (fun x => k))
  (at level 200, x name, m at level 100, k at level 200).

(** ** Enum lookup: [E(value)]

    [Enum.__new__] returns [value] itself when it is already a member of
    [E], otherwise the (canonical) member whose value equals [value], and
    raises [ValueError] when there is none. *)
Definition enum_call (e : enum_class) (v : val) : result val :=
  if isinstance v (TEnum e) then Ok v
  else match List.find (fun m => py_eq (snd m) v) (e_members e) with
       | Some (n, r) => Ok (VMember (e_name e) n r)
       | None => Err (ValueError ("value is not a valid " ++ e_name e))
       end.

(** ** Fields *)

(** The field variants: [IntField], [StringField], [NumberField],
    [DateField], [EnumField(enum_class)], [ListField(element_type)]. *)
Inductive kind :=
| KInt | KString | KNumber | KDate
| KEnum (e : enum_class)
| KList (element_type : ftype).

(** A [Field] object: [_name] is unset ([None]) until [set_name]. *)
Record Field := mk_Field {
  f_kind : kind;
  f_name : option string;
  f_default : val;
  f_required : bool;
  f_validation : option (val -> bool);
  f_in_dump : bool }.

(** [self._type] *)
Definition field_type (f : Field) : ftype :=
  match f_kind f with
  | KInt => TInts | KString => TString | KNumber => TNumber
  | KDate => TDatetime | KEnum e => TEnum e | KList _ => TTuple
  end.

(** [Field.is_enum] *)
Definition is_enum (f : Field) : bool :=
  match f_kind f with KEnum _ => true | _ => false end.

(** The [name] property: raises [AttributeError] before [set_name]. *)
Definition field_name (f : Field) : result string :=
  match f_name f with
  | Some n => Ok n
  | None => Err (AttributeError "'Field' object has no attribute '_name'")
  end.

(** [getattr(self, 'name', 'undefined name')] *)
Definition name_or_undefined (f : Field) : string :=
  match f_name f with Some n => n | None => "undefined name" end.

Definition set_name (f : Field) (n : string) : Field :=
  {| f_kind := f_kind f; f_name := Some n; f_default := f_default f;
     f_required := f_required f; f_validation := f_validation f;
     f_in_dump := f_in_dump f |}.

(** [Field.validate]: [Ok true] stores, [Ok false] unsets. *)
Definition validate (f : Field) (v0 : val) : result bool :=
  let v := call v0 in
  if negb (isinstance v (field_type f)) then
    if is_none v && negb (f_required f) then Ok false
    else Err (ValidationError (Some (name_or_undefined f)) (Some v)
                              (Some (field_type f)) None)
  else match f_validation f with
       | Some p =>
           if p v then Ok true
           else Err (ValidationError (Some (name_or_undefined f)) (Some v) None None)
       | None => Ok true
       end.

(** [iter(v)] for [tuple(... for el in val)]. *)
Definition py_iter (v : val) : result (list val) :=
  match v with
  | VList l | VTuple l => Ok l
  | VStr s => Ok (map (fun c => VStr (String c EmptyString)) (list_ascii_of_string s))
  | _ => Err (TypeError "object is not iterable")
  end.

Section Model.

(** [dateutil.parser.parse] on a string ([None] models its [ValueError]). *)
Variable parse_date : string -> option datetime.
(** [datetime.isoformat]. *)
Variable isoformat : datetime -> string.
(** The builtin [hash] on hashable values. *)
Variable py_hash : val -> Z.

(** The variants' [_pre_convert] (the identity for the plain fields,
    which have none). *)
Definition pre_convert (f : Field) (v : val) : result val :=
  match f_kind f with
  | KDate =>
      match v with
      | VStr s => match parse_date s with
                  | Some d => Ok (VDate d)
                  | None => Err (ValueError "Unknown string format")
                  end
      | _ => Ok v
      end
  | KEnum e =>
      if negb (is_none v) && negb (isinstance v (TEnum e)) then enum_call e v else Ok v
  | KList et =>
      if is_none v then Ok VNone
      else
        let? els := py_iter v in
        let? l := mapR (fun el =>
                          if isinstance el et then Ok el
                          else let? n := field_name f in
                               Err (ValidationError (Some n) (Some el) (Some et) None)) els in
        Ok (VTuple l)
  | _ => Ok v
  end.

(** [Field.__get__] *)
Definition base_get (f : Field) (d : store) : result val :=
  let? n := field_name f in
  match d !! n with
  | Some v => Ok (call v)
  | None =>
      if negb (is_none (f_default f)) then Ok (call (f_default f))
      else Err (AttributeError ("A value for " ++ n ++ " has not been set"))
  end.

(** [__get__] of each variant: [DateField] returns [.isoformat()],
    [EnumField] returns [.value]. *)
Definition field_get (f : Field) (d : store) : result val :=
  match f_kind f with
  | KDate =>
      let? v := base_get f d in
      match v with
      | VDate dt => Ok (VStr (isoformat dt))
      | _ => Err (AttributeError "object has no attribute 'isoformat'")
      end
  | KEnum _ =>
      let? v := base_get f d in
      match v with
      | VMember _ _ r => Ok r
      | _ => Err (AttributeError "object has no attribute 'value'")
      end
  | _ => base_get f d
  end.

(** [Field.__set__] *)
Definition base_set (f : Field) (v : val) : SE unit :=
  let! b := lift (validate f v) in
  let! n := lift (field_name f) in
  if b then modify (insert n v) else modify (delete n).

(** [__set__] of each variant. *)
Definition field_set (f : Field) (v : val) : SE unit :=
  match f_kind f with
  | KDate =>
      catch (let! v' := lift (pre_convert f v) in base_set f v')
            (fun e => match e with
                      | ValueError _ | AttributeError _ =>
                          let! n := lift (field_name f) in
                          lift (Err (ValidationError (Some n) (Some v) (Some TDatetime) None))
                      | _ => lift (Err e)
                      end)
  | KEnum en =>
      catch (let! v' := lift (pre_convert f v) in base_set f v')
            (fun e => match e with
                      | ValueError _ =>
                          let! n := lift (field_name f) in
                          lift (Err (ValidationError (Some n) (Some v) (Some (TEnum en)) None))
                      | _ => lift (Err e)
                      end)
  | KList _ => let! v' := lift (pre_convert f v) in base_set f v'
  | _ => base_set f v
  end.

(** ** Entity classes and instances *)

(** A class built by [EntityType]: its identity and its registry
    [__fields__]. *)
Record EClass := mk_EClass {
  cls_id : positive;
  cls_name : string;
  cls_fields : gmap string Field }.

Record Inst := mk_Inst { inst_cls : EClass; inst_dict : store }.

Definition registry (c : EClass) : list (string * Field) := map_to_list (cls_fields c).

(** [getattr(self, name)]: a registry name resolves to its descriptor;
    any other name is an ordinary attribute of [__dict__]. *)
Definition getattr (i : Inst) (k : string) : result val :=
  match cls_fields (inst_cls i) !! k with
  | Some f => field_get f (inst_dict i)
  | None => match inst_dict i !! k with
            | Some v => Ok v
            | None => Err (AttributeError k)
            end
  end.

(** [getattr(self, name, default)]: catches [AttributeError] only. *)
Definition getattr_default (i : Inst) (k : string) (d : val) : result val :=
  match getattr i k with
  | Err (AttributeError _) => Ok d
  | r => r
  end.

(** [setattr(self, name, v)]; the instance keeps whatever store the
    assignment reached, also when it raises. *)
Definition setattr (i : Inst) (k : string) (v : val) : Inst * result unit :=
  let st := match cls_fields (inst_cls i) !! k with
            | Some f => field_set f v
            | None => modify (insert k v)
            end in
  let (d', r) := st (inst_dict i) in
  (mk_Inst (inst_cls i) d', r).

(** The loop of [Entity.__init__]:
    [for key in self.__fields__: if key in kwargs: setattr(...)]. *)
Fixpoint set_each (fs : list (string * Field)) (kw : gmap string val) : SE unit :=
  match fs with
  | [] => sret tt
  | (k, f) :: fs' =>
      let! _ := match kw !! k with Some v => field_set f v | None => sret tt end in
      set_each fs' kw
  end.

(** [Entity.validate]: [reduce(lambda x, y: y, (getattr(self, name) for
    required fields))].  [reduce] without an initial value raises
    [TypeError] on an empty sequence; only [AttributeError] is caught. *)
Definition entity_validate (c : EClass) : SE unit :=
  fun s =>
    let req := filter (fun kf => f_required kf.2 = true) (registry c) in
    (s, match mapR (fun kf => field_get kf.2 s) req with
        | Err (AttributeError m) => Err (ValidationError None None None (Some m))
        | Err e => Err e
        | Ok [] => Err (TypeError "reduce() of empty sequence with no initial value")
        | Ok _ => Ok tt
        end).

(** [cls( **kw)]: [__init__(self, **kwargs)] cannot receive a keyword
    named [self]; otherwise the body of [Entity.__init__] runs on a fresh
    [__dict__]. *)
Definition construct (c : EClass) (kw : gmap string val) : result Inst :=
  match kw !! "self" with
  | Some _ => Err (TypeError "__init__() got multiple values for keyword argument 'self'")
  | None =>
      match (let! _ := set_each (registry c) kw in entity_validate c) ∅ with
      | (d, Ok _) => Ok (mk_Inst c d)
      | (_, Err e) => Err e
      end
  end.

(** [Entity.load] *)
Definition load (c : EClass) (data : gmap string val) : result Inst := construct c data.

(** [Entity.__dump_fields]: the fields with [in_dump] (the cache test
    looks up the unmangled name, so the set is rebuilt on every call). *)
Definition dump_fields (c : EClass) : list Field :=
  filter (fun f => f_in_dump f = true) (map snd (registry c)).

(** [Entity.dump] *)
Definition dump (i : Inst) : result store :=
  let? pairs := mapR (fun f => let? n := field_name f in
                               let? v := getattr i n in Ok (n, v))
                     (filter (fun f => f_required f = true) (dump_fields (inst_cls i))) in
  Ok (foldl (fun m nv => <[nv.1 := nv.2]> m) ∅
            (filter (fun nv => is_none nv.2 = false) pairs)).

(** [all(getattr(self, f) == getattr(other, f) for f in self.__fields__)] *)
Fixpoint eq_all (a b : Inst) (ks : list string) : result bool :=
  match ks with
  | [] => Ok true
  | k :: ks' =>
      let? v1 := getattr a k in
      let? v2 := getattr b k in
      if py_eq v1 v2 then eq_all a b ks' else Ok false
  end.

(** [Entity.__eq__] *)
Definition entity_eq (a b : Inst) : result bool :=
  if negb (Pos.eqb (cls_id (inst_cls a)) (cls_id (inst_cls b))) then Ok false
  else eq_all a b (map fst (registry (inst_cls a))).

(** [sum(hash(getattr(self, field, None)) for field in self.__fields__)];
    the first unhashable value raises. *)
Fixpoint hash_sum (a : Inst) (acc : Z) (ks : list string) : result Z :=
  match ks with
  | [] => Ok acc
  | k :: ks' =>
      let? v := getattr_default a k VNone in
      if hashable v then hash_sum a (acc + py_hash v)%Z ks'
      else Err (TypeError "unhashable type: 'list'")
  end.

(** [Entity.__hash__] *)
Definition entity_hash (a : Inst) : result Z :=
  hash_sum a 0%Z (map fst (registry (inst_cls a))).

(** ** [create_from_objects] *)

(** A source object as seen by [getattr(obj, key)]: [None] is the
    [AttributeError] of a missing attribute. *)
Definition source := string -> option val.

(** Modelled from the spec: [auxlib.collection.AttrDict] (not among the
    sources), "attribute-style lookup that raises a distinguishable 'not
    found' signal for absent keys". *)
Definition AttrDict (d : gmap string val) : source := fun k => d !! k.

(** [find_or_none(key, search_maps, map_index)], with [fuel] bounding
    the recursion depth (see [find_or_none_fuel] for a sufficient bound).
    An attribute found but [None] restarts on [search_maps[1:]] at index
    0; a missing attribute moves to [map_index + 1]; running off the end
    ([IndexError]) returns [None]. *)
Fixpoint find_or_none_go (fuel : nat) (key : string) (maps : list source)
    (idx : nat) : val :=
  match fuel with
  | O => VNone
  | S fuel' =>
      match maps !! idx with
      | None => VNone
      | Some m =>
          match m key with
          | Some attr =>
              if is_none attr then find_or_none_go fuel' key (tail maps) 0 else attr
          | None => find_or_none_go fuel' key maps (S idx)
          end
      end
  end.

Definition find_or_none_fuel (maps : list source) : nat :=
  S (length maps * S (length maps) + length maps).

Definition find_or_none (key : string) (maps : list source) : val :=
  find_or_none_go (find_or_none_fuel maps) key maps 0.

(** The loop of [create_from_objects] building [init_vars]. *)
Fixpoint collect (maps : list source) (fs : list (string * Field))
    (acc : gmap string val) : result (gmap string val) :=
  match fs with
  | [] => Ok acc
  | (k, f) :: fs' =>
      let value := find_or_none k maps in
      if negb (is_none value) || f_required f then
        let? v := (match f_kind f with
                   | KEnum e => enum_call e value   (* field.type(value) *)
                   | _ => Ok value
                   end) in
        collect maps fs' (<[k := v]> acc)
      else collect maps fs' acc
  end.

Definition init_vars_of (c : EClass) (objects : list source)
    (override_fields : gmap string val) : result (gmap string val) :=
  collect (AttrDict override_fields :: objects) (registry c) ∅.

(** [Entity.create_from_objects(cls, *objects, **override_fields)]: the
    classmethod cannot receive a keyword named [cls]. *)
Definition create_from_objects (c : EClass) (objects : list source)
    (override_fields : gmap string val) : result Inst :=
  match override_fields !! "cls" with
  | Some _ =>
      Err (TypeError "create_from_objects() got multiple values for keyword argument 'cls'")
  | None =>
      let? iv := init_vars_of c objects override_fields in
      construct c iv
  end.

(** ** Class definition *)

(** The arguments of a field declaration in a class body, e.g.
    [IntField(4, in_dump=False)]. *)
Record field_args := mk_field_args {
  fa_kind : kind;
  fa_default : val;
  fa_required : bool;
  fa_validation : option (val -> bool);
  fa_in_dump : bool }.

(** A field object as its constructor starts: no name, no default. *)
Definition field_base (a : field_args) : Field :=
  {| f_kind := fa_kind a; f_name := None; f_default := VNone;
     f_required := fa_required a; f_validation := fa_validation a;
     f_in_dump := fa_in_dump a |}.

(** [self._default = default] *)
Definition with_default (f : Field) (d : val) : Field :=
  {| f_kind := f_kind f; f_name := f_name f; f_default := d;
     f_required := f_required f; f_validation := f_validation f;
     f_in_dump := f_in_dump f |}.

(** [Field.__init__] (after the variant's [__init__] pre-converted the
    default): a non-[None] default is validated. *)
Definition field_init (a : field_args) : result Field :=
  let f0 := field_base a in
  let? d := pre_convert f0 (fa_default a) in
  let f := with_default f0 d in
  if is_none d then Ok f
  else let? _ := validate f d in Ok f.

(** [EntityType.__validate_defaults]: it builds a generator expression
    and never iterates it, so no default is validated here. *)
Definition validate_defaults (reg : gmap string Field) : result unit := Ok tt.

(** Executing a class statement [class name(parent): body]: the field
    declarations of the body run in order, then [EntityType.__init__]
    copies the parent's registry, binds and adds the class's own fields,
    and calls [__validate_defaults]. *)
Definition define_class (cid : positive) (name : string) (parent : option EClass)
    (body : list (string * field_args)) : result EClass :=
  let? fields := mapR (fun na => let? f := field_init na.2 in Ok (na.1, f)) body in
  let inherited := match parent with Some p => cls_fields p | None => ∅ end in
  let reg := foldl (fun r nf => <[nf.1 := set_name nf.2 nf.1]> r) inherited fields in
  let? _ := validate_defaults reg in
  Ok (mk_EClass cid name reg).


(** The search the spec describes for [create_from_objects]: the first
    value that is present and not [None], scanning the lookup objects in
    order; absent and [None] both mean "keep searching". *)
Fixpoint first_non_null (key : string) (maps : list source) : val :=
  match maps with
  | [] => VNone
  | m :: ms =>
      match m key with
      | Some v => if is_none v then first_non_null key ms else v
      | None => first_non_null key ms
      end
  end.

(** The custom validator, if any, accepts [w]. *)
Definition validator_accepts (f : Field) (w : val) : Prop :=
  match f_validation f with Some p => p w = true | None => True end.

(** ** Values a field holds *)

(** A value (after calling it if callable) that a field's [__set__]
    leaves in [__dict__]: of the declared type and accepted by the
    custom validator; for an enum field a canonical member; for a list
    field a tuple of elements of the element type. *)
Definition wf_value (f : Field) (w : val) : Prop :=
  isinstance w (field_type f) = true /\ validator_accepts f w /\
  match f_kind f with
  | KEnum e => exists n r, w = VMember (e_name e) n r /\ In (n, r) (e_members e)
  | KList et => exists l, w = VTuple l /\ Forall (fun x => isinstance x et = true) l
  | _ => True
  end.

(** An [Enum] whose canonical members have pairwise unequal values,
    none of which is itself a member of the enum. *)
Definition enum_wf (e : enum_class) : Prop :=
  (forall i j a b, e_members e !! i = Some a -> e_members e !! j = Some b ->
     py_eq a.2 b.2 = true -> i = j) /\
  (forall n r, In (n, r) (e_members e) -> isinstance r (TEnum e) = false).

(** Keyword data whose enum members (for enum fields) are canonical
    members of the field's enum. *)
Definition kw_genuine (c : EClass) (kw : gmap string val) : Prop :=
  forall k f e n r, cls_fields c !! k = Some f -> f_kind f = KEnum e ->
    kw !! k = Some (VMember (e_name e) n r) -> In (n, r) (e_members e).

(** Every non-[None] default is a value its field accepts. *)
Definition defaults_ok (c : EClass) : Prop :=
  forall k f, cls_fields c !! k = Some f -> is_none (f_default f) = false ->
    wf_value f (call (f_default f)).

(** ** Well-formed classes and live instances *)

(** [EntityType.__init__] binds every registered field's name to its key
    ([set_name]). *)
Definition class_wf (c : EClass) : Prop :=
  forall k f, cls_fields c !! k = Some f -> f_name f = Some k.

(** Every required field of the instance can be retrieved. *)
Definition required_ok (i : Inst) : Prop :=
  forall k f, cls_fields (inst_cls i) !! k = Some f -> f_required f = true ->
  exists v, getattr i k = Ok v.

(** The instances a program can observe: built by a successful
    constructor call, then subject to attribute assignments (successful
    or not). *)
Inductive live : Inst -> Prop :=
| live_new c kw i : construct c kw = Ok i -> live i
| live_set i k v i' r : live i -> setattr i k v = (i', r) -> live i'.

(** ** Example classes and data

    Concrete classes, as [EntityType] builds them, for the examples at
    the end of the file. *)

(** Stand-ins for the library primitives. *)
Definition demo_parse (s : string) : option datetime := None.
Definition demo_iso (d : datetime) : string := "".
Definition demo_hash (v : val) : Z := 0.

(** [class Color(Enum): blue = 0; black = 1; red = 2] *)
Definition Color : enum_class :=
  mk_enum "Color" [("blue", VInt 0); ("black", VInt 1); ("red", VInt 2)].

(** A field bound to its name, without custom validation. *)
Definition named_field (k : kind) (n : string) (default : val) (required in_dump : bool) : Field :=
  {| f_kind := k; f_name := Some n; f_default := default; f_required := required;
     f_validation := None; f_in_dump := in_dump |}.

(** [class Truck(Entity): color = EnumField(Color); weight = NumberField();
    wheels = IntField(4, in_dump=False)] *)
Definition Truck : EClass :=
  mk_EClass 1 "Truck"
    (list_to_map [("color", named_field (KEnum Color) "color" VNone true true);
                  ("weight", named_field KNumber "weight" VNone true true);
                  ("wheels", named_field KInt "wheels" (VInt 4) true false)]).

(** [Truck(color=0, weight=44.4, wheels=18)] *)
Definition truck_kw : gmap string val :=
  list_to_map [("color", VInt 0); ("weight", VFloat (444 # 10)); ("wheels", VInt 18)].

(** [class Opt(Entity): x = IntField(required=False)] *)
Definition Opt : EClass :=
  mk_EClass 2 "Opt" (list_to_map [("x", named_field KInt "x" VNone false true)]).

(** [class Pair(Entity): a = IntField(); b = IntField(in_dump=False)] *)
Definition Pair : EClass :=
  mk_EClass 3 "Pair"
    (list_to_map [("a", named_field KInt "a" VNone true true);
                  ("b", named_field KInt "b" VNone true false)]).

(** [IntField(default="x")] in a class body. *)
Definition bad_default_args : field_args := mk_field_args KInt (VStr "x") true None true.

(** [EnumField(Color, validation=lambda c: c is not Color.red)], bound
    to [color]. *)
Definition picky_color : Field :=
  {| f_kind := KEnum Color; f_name := Some "color"; f_default := VNone; f_required := true;
     f_validation := Some (fun v => negb (py_eq v (VMember "Color" "red" (VInt 2))));
     f_in_dump := true |}.

(** [class Maybe(Enum): unknown = None; yes = 1] and
    [class Answer(Entity): a = EnumField(Maybe)] *)
Definition Maybe : enum_class := mk_enum "Maybe" [("unknown", VNone); ("yes", VInt 1)].
Definition Answer : EClass :=
  mk_EClass 4 "Answer" (list_to_map [("a", named_field (KEnum Maybe) "a" VNone true true)]).

(** [Truck.create_from_objects(o1, o2, wheels=6)] where [o1.weight] is
    [None] and [o2] has [weight = 7] and [color = 2]. *)
Definition sources_demo : list source :=
  [AttrDict (<["weight" := VNone]> ∅);
   AttrDict (<["weight" := VInt 7]> (<["color" := VInt 2]> ∅))].
Definition overrides_demo : gmap string val := <["wheels" := VInt 6]> ∅.

(** [class Pet(Entity): name = StringField(); age = IntField(required=False);
    legs = IntField(4)] *)
Definition Pet : EClass :=
  mk_EClass 5 "Pet"
    (list_to_map [("name", named_field KString "name" VNone true true);
                  ("age", named_field KInt "age" VNone false true);
                  ("legs", named_field KInt "legs" (VInt 4) true true)]).

(** [class Shape(Enum): square = [4]] and
    [class Tile(Entity): shape = EnumField(Shape)] *)
Definition Shape : enum_class := mk_enum "Shape" [("square", VList [VInt 4])].
Definition Tile : EClass :=
  mk_EClass 7 "Tile" (list_to_map [("shape", named_field (KEnum Shape) "shape" VNone true true)]).

(** [Pet(name="Rex")] *)
Definition pet_kw : gmap string val := <["name" := VStr "Rex"]> ∅.

(** [ListField(basestring, required=False)], bound to [tags]. *)
Definition tags_field : Field := named_field (KList TString) "tags" VNone false true.

(** [DateField()], bound to [when]. *)
Definition when_field : Field := named_field KDate "when" VNone true true.

(** [datetime(2016, 1, 1)] *)
Definition new_year : datetime := mk_datetime 2016 1 1 0 0 0 0.

(** The body of [class Lorry(Truck): wheels = IntField(6, in_dump=False);
    cargo = StringField()]. *)
Definition lorry_body : list (string * field_args) :=
  [("wheels", mk_field_args KInt (VInt 6) true None false);
   ("cargo", mk_field_args KString VNone true None true)].

(** * Properties *)

(** ** General facts *)

Lemma mapR_Ok {A B} (f : A -> result B) (l : list A) (ys : list B) :
  mapR f l = Ok ys <-> Forall2 (fun x y => f x = Ok y) l ys.
Proof.
  revert ys; induction l as [|x l IH]; intros ys; simpl.
  - split; [intros H; injection H as <-; constructor|intros H; inversion H; reflexivity].
  - split.
    + destruct (f x) as [y|e] eqn:Hf; simpl; [|discriminate].
      destruct (mapR f l) as [ys'|e] eqn:Hm; simpl; [|discriminate].
      intros H; injection H as <-. constructor; [assumption|]. by apply IH.
    + intros H; inversion H as [|? y ? ys' Hy Hys]; subst.
      rewrite Hy; simpl. apply IH in Hys. by rewrite Hys.
Qed.

Lemma mapR_Err_exists {A B} (f : A -> result B) (l : list A) (e : exn) :
  mapR f l = Err e -> exists x, In x l /\ f x = Err e.
Proof.
  induction l as [|x l IH]; simpl; [discriminate|].
  destruct (f x) as [y|e'] eqn:Hf; simpl.
  - destruct (mapR f l) eqn:Hm; simpl; [discriminate|].
    intros H; injection H as <-. destruct IH as [z [Hz Hfz]]; [reflexivity|]. eauto.
  - intros H; injection H as <-. eauto.
Qed.

Lemma base_get_err (f : Field) (d : store) (e : exn) :
  base_get f d = Err e -> exists m, e = AttributeError m.
Proof.
  unfold base_get, field_name. destruct (f_name f) as [n|]; simpl.
  - destruct (d !! n); [discriminate|].
    destruct (negb (is_none (f_default f))); [discriminate|].
    intros H; injection H as <-; eauto.
  - intros H; injection H as <-; eauto.
Qed.

Lemma field_get_err (f : Field) (d : store) (e : exn) :
  field_get f d = Err e -> exists m, e = AttributeError m.
Proof.
  unfold field_get. destruct (f_kind f); try apply base_get_err.
  - destruct (base_get f d) as [v|e'] eqn:Hb; simpl.
    + destruct v; try (intros H; injection H as <-; eauto); discriminate.
    + intros H; injection H as <-. eapply base_get_err; eauto.
  - destruct (base_get f d) as [v|e'] eqn:Hb; simpl.
    + destruct v; try (intros H; injection H as <-; eauto); discriminate.
    + intros H; injection H as <-. eapply base_get_err; eauto.
Qed.

Lemma getattr_err (i : Inst) (k : string) (e : exn) :
  getattr i k = Err e -> exists m, e = AttributeError m.
Proof.
  unfold getattr. destruct (cls_fields (inst_cls i) !! k).
  - apply field_get_err.
  - destruct (inst_dict i !! k); [discriminate|]. intros H; injection H as <-; eauto.
Qed.

Lemma in_registry_keys (c : EClass) (k : string) :
  In k (map fst (registry c)) <-> exists f, cls_fields c !! k = Some f.
Proof.
  unfold registry. rewrite in_map_iff. split.
  - intros [[k' f] [Hk Hin]]; simpl in Hk; subst k'.
    exists f. apply elem_of_map_to_list. by apply list_elem_of_In.
  - intros [f Hf]. exists (k, f); split; [reflexivity|].
    apply list_elem_of_In. by apply elem_of_map_to_list.
Qed.

Lemma eq_all_true (a b : Inst) (ks : list string) :
  eq_all a b ks = Ok true <->
  forall k, In k ks -> exists v1 v2,
    getattr a k = Ok v1 /\ getattr b k = Ok v2 /\ py_eq v1 v2 = true.
Proof.
  induction ks as [|k ks IH]; simpl.
  - split; [intros _ k []|reflexivity].
  - destruct (getattr a k) as [v1|e] eqn:H1; simpl.
    + destruct (getattr b k) as [v2|e] eqn:H2; simpl.
      * destruct (py_eq v1 v2) eqn:Heq.
        -- rewrite IH. split.
           ++ intros H k' [<-|Hk']; [eauto|]. by apply H.
           ++ intros H k' Hk'. apply H; by right.
        -- split; [discriminate|]. intros H.
           destruct (H k (or_introl eq_refl)) as (w1 & w2 & E1 & E2 & E3).
           rewrite H1 in E1; rewrite H2 in E2. injection E1 as <-; injection E2 as <-.
           congruence.
      * split; [discriminate|]. intros H.
        destruct (H k (or_introl eq_refl)) as (w1 & w2 & E1 & E2 & E3). congruence.
    + split; [discriminate|]. intros H.
      destruct (H k (or_introl eq_refl)) as (w1 & w2 & E1 & E2 & E3). congruence.
Qed.

Lemma hash_sum_ok (a : Inst) (acc : Z) (ks : list string) :
  (forall k, In k ks -> hashable (match getattr a k with Ok v => v | Err _ => VNone end) = true) ->
  hash_sum a acc ks =
  Ok (acc + fold_right Z.add 0%Z
              (map (fun k => py_hash (match getattr a k with Ok v => v | Err _ => VNone end)) ks))%Z.
Proof.
  revert acc; induction ks as [|k ks IH]; intros acc Hh; simpl.
  - f_equal; lia.
  - unfold getattr_default.
    pose proof (Hh k (or_introl eq_refl)) as Hk.
    assert (Hr : forall k', In k' ks ->
                 hashable (match getattr a k' with Ok v => v | Err _ => VNone end) = true)
      by (intros k' Hk'; apply Hh; right; exact Hk').
    destruct (getattr a k) as [v|e] eqn:Hg; simpl.
    + rewrite Hk, IH by exact Hr. f_equal; lia.
    + destruct (getattr_err a k e Hg) as [m ->]. simpl. rewrite IH by exact Hr. f_equal; lia.
Qed.

Lemma hash_sum_err (a : Inst) (acc : Z) (ks : list string) :
  (exists k, In k ks /\ hashable (match getattr a k with Ok v => v | Err _ => VNone end) = false) ->
  hash_sum a acc ks = Err (TypeError "unhashable type: 'list'").
Proof.
  revert acc; induction ks as [|k ks IH]; intros acc [k' [Hin Hk']]; [contradiction|]. simpl.
  unfold getattr_default.
  destruct (getattr a k) as [v|e] eqn:Hg; simpl.
  - destruct (hashable v) eqn:Hv; [|reflexivity].
    destruct Hin as [<-|Hin]; [rewrite Hg, Hv in Hk'; discriminate|].
    apply IH. eauto.
  - destruct (getattr_err a k e Hg) as [m ->]. simpl.
    destruct Hin as [<-|Hin]; [rewrite Hg in Hk'; discriminate|].
    apply IH. eauto.
Qed.

(** ** C8: equality and hashing *)

(** C8 (amended). Two instances compare equal ([__eq__] returns [True])
    exactly when they have the same class and every registry field
    retrieves, on both, values that are [==].  When every retrieved value
    is hashable, [__hash__] is the sum over the registry of the hashes of
    the retrieved values, a field whose retrieval fails contributing
    [hash(None)]; when one is unhashable (a list, or a tuple holding
    one), [__hash__] raises [TypeError]. *)
Theorem entity_eq_hash_spec (a b : Inst) :
  (entity_eq a b = Ok true <->
   cls_id (inst_cls a) = cls_id (inst_cls b) /\
   forall k f, cls_fields (inst_cls a) !! k = Some f ->
     exists v1 v2, getattr a k = Ok v1 /\ getattr b k = Ok v2 /\ py_eq v1 v2 = true) /\
  ((forall k, In k (map fst (registry (inst_cls a))) ->
      hashable (match getattr a k with Ok v => v | Err _ => VNone end) = true) ->
   entity_hash a =
   Ok (fold_right Z.add 0%Z
         (map (fun k => py_hash (match getattr a k with Ok v => v | Err _ => VNone end))
              (map fst (registry (inst_cls a)))))) /\
  ((exists k, In k (map fst (registry (inst_cls a))) /\
      hashable (match getattr a k with Ok v => v | Err _ => VNone end) = false) ->
   entity_hash a = Err (TypeError "unhashable type: 'list'")).
Proof.
  split; [|split].
  - unfold entity_eq.
    destruct (Pos.eqb (cls_id (inst_cls a)) (cls_id (inst_cls b))) eqn:Hid; simpl.
    + apply Pos.eqb_eq in Hid. rewrite eq_all_true. split.
      * intros H; split; [assumption|]. intros k f Hf. apply H, in_registry_keys; eauto.
      * intros [_ H] k Hk. apply in_registry_keys in Hk as [f Hf]. eauto.
    + split; [discriminate|]. intros [Heq _]. apply Pos.eqb_neq in Hid. contradiction.
  - intros Hh. unfold entity_hash. rewrite hash_sum_ok by exact Hh. reflexivity.
  - intros Hh. unfold entity_hash. apply hash_sum_err, Hh.
Qed.


(** ** Assignments through a field *)

Ltac crush_se :=
  repeat (simpl in *;
    match goal with
    | H : (_, _) = (_, _) |- _ => injection H as; subst
    | H : Ok _ = Ok _ |- _ => injection H as; subst
    | H : Err _ = Err _ |- _ => injection H as; subst
    | H : Ok _ = Err _ |- _ => discriminate H
    | H : Err _ = Ok _ |- _ => discriminate H
    | H : context [match ?x with _ => _ end] |- _ => destruct x eqn:?
    end).

Lemma base_set_ok (f : Field) (v : val) (d d' : store) (u : unit) :
  base_set f v d = (d', Ok u) ->
  exists n b, f_name f = Some n /\ validate f v = Ok b /\
              d' = if b then <[n := v]> d else delete n d.
Proof.
  unfold base_set, sbind, lift, modify, field_name. intros H. crush_se; eauto.
Qed.

Lemma base_set_err (f : Field) (v : val) (d d' : store) (e : exn) :
  base_set f v d = (d', Err e) -> d' = d.
Proof.
  unfold base_set, sbind, lift, modify, field_name. intros H. crush_se; reflexivity.
Qed.

Lemma field_set_ok (f : Field) (v : val) (d d' : store) (u : unit) :
  field_set f v d = (d', Ok u) ->
  exists n w b, f_name f = Some n /\ validate f w = Ok b /\
                d' = if b then <[n := w]> d else delete n d.
Proof.
  unfold field_set, catch, sbind, lift. intros H.
  destruct (f_kind f) eqn:Hk; try (destruct (base_set_ok _ _ _ _ _ H) as (n & b & ?); eauto; fail).
  - destruct (pre_convert f v) as [v'|ex0]; simpl in H.
    + destruct (base_set f v' d) as [s [a|e1]] eqn:Hb.
      * injection H as <- <-. destruct (base_set_ok _ _ _ _ _ Hb) as (n & b & ?); eauto.
      * destruct e1; unfold field_name in H; crush_se.
    + destruct ex0; unfold field_name in H; crush_se.
  - destruct (pre_convert f v) as [v'|ex0]; simpl in H.
    + destruct (base_set f v' d) as [s [a|e1]] eqn:Hb.
      * injection H as <- <-. destruct (base_set_ok _ _ _ _ _ Hb) as (n & b & ?); eauto.
      * destruct e1; unfold field_name in H; crush_se.
    + destruct ex0; unfold field_name in H; crush_se.
  - destruct (pre_convert f v) as [v'|ex0]; simpl in H; [|discriminate].
    destruct (base_set_ok _ _ _ _ _ H) as (n & b & ?); eauto.
Qed.

Lemma field_set_err (f : Field) (v : val) (d d' : store) (e : exn) :
  field_set f v d = (d', Err e) -> d' = d.
Proof.
  unfold field_set, catch, sbind, lift. intros H.
  destruct (f_kind f) eqn:Hk; try (eapply base_set_err; eauto; fail).
  - destruct (pre_convert f v) as [v'|ex0]; simpl in H.
    + destruct (base_set f v' d) as [s [a|e1]] eqn:Hb; [discriminate|].
      apply base_set_err in Hb; subst s.
      destruct e1; unfold field_name in H; crush_se; reflexivity.
    + destruct ex0; unfold field_name in H; crush_se; reflexivity.
  - destruct (pre_convert f v) as [v'|ex0]; simpl in H.
    + destruct (base_set f v' d) as [s [a|e1]] eqn:Hb; [discriminate|].
      apply base_set_err in Hb; subst s.
      destruct e1; unfold field_name in H; crush_se; reflexivity.
    + destruct ex0; unfold field_name in H; crush_se; reflexivity.
  - destruct (pre_convert f v) as [v'|ex0]; simpl in H; [|crush_se; reflexivity].
    eapply base_set_err; eauto.
Qed.


Lemma validate_true_inst (f : Field) (w : val) :
  validate f w = Ok true -> isinstance (call w) (field_type f) = true.
Proof.
  unfold validate. destruct (isinstance (call w) (field_type f)); simpl; [reflexivity|].
  destruct (is_none (call w) && negb (f_required f)); discriminate.
Qed.

Lemma validate_false_opt (f : Field) (w : val) :
  validate f w = Ok false -> f_required f = false.
Proof.
  unfold validate. destruct (isinstance (call w) (field_type f)); simpl.
  - destruct (f_validation f) as [p|]; [destruct (p (call w))|]; discriminate.
  - destruct (is_none (call w)), (f_required f); simpl; try discriminate; reflexivity.
Qed.

Lemma field_get_ext (f : Field) (n : string) (d1 d2 : store) :
  f_name f = Some n -> d1 !! n = d2 !! n -> field_get f d1 = field_get f d2.
Proof.
  intros Hn Hd. unfold field_get, base_get, field_name. rewrite Hn. simpl. rewrite Hd.
  reflexivity.
Qed.

Lemma field_get_stored (f : Field) (n : string) (d : store) (w : val) :
  f_name f = Some n -> d !! n = Some w -> isinstance (call w) (field_type f) = true ->
  exists v, field_get f d = Ok v.
Proof.
  intros Hn Hd Hi. unfold field_get, base_get, field_name. rewrite Hn. simpl. rewrite Hd. simpl.
  unfold field_type in Hi.
  destruct (f_kind f); eauto; destruct (call w); simpl in Hi; try discriminate; eauto.
Qed.

Lemma Forall2_in_l {A B} (R : A -> B -> Prop) (l : list A) (l' : list B) (x : A) :
  Forall2 R l l' -> In x l -> exists y, In y l' /\ R x y.
Proof.
  induction 1 as [|a b l l' Hab Hl IH]; simpl; [intros []|].
  intros [<-|Hx]; [exists b; auto|]. destruct (IH Hx) as (y & ? & ?). eauto.
Qed.

Lemma Forall2_in_r {A B} (R : A -> B -> Prop) (l : list A) (l' : list B) (y : B) :
  Forall2 R l l' -> In y l' -> exists x, In x l /\ R x y.
Proof.
  induction 1 as [|a b l l' Hab Hl IH]; simpl; [intros []|].
  intros [<-|Hy]; [exists a; auto|]. destruct (IH Hy) as (x & ? & ?). eauto.
Qed.

Lemma In_filter {A} (P : A -> Prop) `{!forall x, Decision (P x)} (l : list A) (x : A) :
  In x (filter P l) <-> P x /\ In x l.
Proof. rewrite <- !list_elem_of_In. apply list_elem_of_filter. Qed.

Lemma in_registry (c : EClass) (k : string) (f : Field) :
  In (k, f) (registry c) <-> cls_fields c !! k = Some f.
Proof.
  unfold registry. rewrite <- elem_of_map_to_list. symmetry. apply list_elem_of_In.
Qed.

(** Every required field of a live instance can be retrieved. *)
Lemma construct_required (c : EClass) (kw : gmap string val) (i : Inst) :
  construct c kw = Ok i -> inst_cls i = c /\ required_ok i.
Proof.
  unfold construct. destruct (kw !! "self"); [discriminate|].
  unfold sbind. destruct (set_each (registry c) kw ∅) as [s [u|e]]; [|discriminate].
  unfold entity_validate.
  destruct (mapR _ _) as [vs|e] eqn:Hm; [|destruct e; discriminate].
  destruct vs as [|v0 vs]; [discriminate|].
  intros H; injection H as <-. split; [reflexivity|].
  intros k f Hf Hr. apply mapR_Ok in Hm.
  destruct (Forall2_in_l _ _ _ (k, f) Hm) as (y & _ & Hy).
  - apply In_filter. split; [exact Hr|by apply in_registry].
  - exists y. unfold getattr. simpl in Hf |- *. rewrite Hf. exact Hy.
Qed.

Lemma setattr_cls (i : Inst) (k : string) (v : val) (i' : Inst) (r : result unit) :
  setattr i k v = (i', r) -> inst_cls i' = inst_cls i.
Proof.
  unfold setattr. destruct (_ (inst_dict i)). intros H; injection H as <- _. reflexivity.
Qed.

Lemma setattr_required (i : Inst) (k : string) (v : val) (i' : Inst) (r : result unit) :
  class_wf (inst_cls i) -> required_ok i -> setattr i k v = (i', r) -> required_ok i'.
Proof.
  intros Hwf Hreq. unfold setattr.
  destruct (cls_fields (inst_cls i) !! k) as [f|] eqn:Hf.
  - destruct (field_set f v (inst_dict i)) as [d' r'] eqn:Hs.
    intros H; injection H as <- _.
    intros k' f' Hf' Hr'. unfold getattr; simpl in Hf' |- *. rewrite Hf'.
    destruct r' as [u|e].
    + destruct (field_set_ok _ _ _ _ _ Hs) as (n & w & b & Hn & Hv & ->).
      pose proof (Hwf _ _ Hf) as Hn'. rewrite Hn in Hn'; injection Hn' as ->.
      destruct (String.eqb_spec k' k) as [->|Hne].
      * rewrite Hf in Hf'; injection Hf' as ->.
        destruct b; [|rewrite (validate_false_opt _ _ Hv) in Hr'; discriminate].
        eapply field_get_stored; [exact Hn|apply lookup_insert_eq|].
        by apply validate_true_inst.
      * destruct (Hreq k' f' Hf' Hr') as [v0 Hg]. exists v0.
        unfold getattr in Hg. rewrite Hf' in Hg. rewrite <- Hg.
        apply field_get_ext with k'; [by apply Hwf|].
        simpl. destruct b; [by rewrite lookup_insert_ne|by rewrite lookup_delete_ne].
    + apply field_set_err in Hs as ->.
      destruct (Hreq k' f' Hf' Hr') as [v0 Hg]. unfold getattr in Hg. rewrite Hf' in Hg. eauto.
  - unfold modify. intros H; injection H as <- _.
    intros k' f' Hf' Hr'. unfold getattr; simpl in Hf' |- *. rewrite Hf'.
    destruct (Hreq k' f' Hf' Hr') as [v0 Hg]. unfold getattr in Hg. rewrite Hf' in Hg.
    exists v0. rewrite <- Hg. apply field_get_ext with k'; [by apply Hwf|].
    simpl. apply lookup_insert_ne. intros ->. congruence.
Qed.

Lemma live_required (i : Inst) : live i -> class_wf (inst_cls i) -> required_ok i.
Proof.
  induction 1 as [c kw i Hc|i k v i' r Hl IH Hs]; intros Hwf.
  - by apply construct_required in Hc as [_ ?].
  - pose proof (setattr_cls _ _ _ _ _ Hs) as Hcls. rewrite Hcls in Hwf.
    eapply setattr_required; eauto.
Qed.


(** ** Building a dict from pairs: [{name: value for ...}] *)

Lemma foldl_insert_notin (l : list (string * val)) (m0 : store) (k : string) :
  ~ In k (map fst l) -> foldl (fun m nv => <[nv.1 := nv.2]> m) m0 l !! k = m0 !! k.
Proof.
  revert m0; induction l as [|[k' v'] l IH]; intros m0 Hk; simpl in *; [reflexivity|].
  rewrite IH by tauto. apply lookup_insert_ne. tauto.
Qed.

Lemma foldl_insert_some (l : list (string * val)) (m0 : store) (k : string) (v : val) :
  foldl (fun m nv => <[nv.1 := nv.2]> m) m0 l !! k = Some v -> In (k, v) l \/ m0 !! k = Some v.
Proof.
  revert m0; induction l as [|[k' v'] l IH]; intros m0 H; simpl in *; [auto|].
  destruct (IH _ H) as [?|Hm]; [auto|].
  destruct (String.eqb_spec k' k) as [->|Hne].
  - rewrite lookup_insert_eq in Hm. injection Hm as ->. auto.
  - rewrite lookup_insert_ne in Hm by exact Hne. auto.
Qed.

Lemma foldl_insert_in (l : list (string * val)) (m0 : store) (k : string) (v : val) :
  In (k, v) l -> exists v', foldl (fun m nv => <[nv.1 := nv.2]> m) m0 l !! k = Some v' /\ In (k, v') l.
Proof.
  revert m0 v; induction l as [|[k' v'] l IH]; intros m0 v H; simpl in *; [contradiction|].
  destruct (in_dec string_dec k (map fst l)) as [Hk|Hnot].
  - apply in_map_iff in Hk as [[k2 v''] [Hk2 Hin]]. simpl in Hk2; subst k2.
    destruct (IH (<[k' := v']> m0) v'' Hin) as (w & ? & ?). eauto.
  - destruct H as [Heq|Hin]; [|exfalso; apply Hnot, in_map_iff; exists (k, v); auto].
    injection Heq as -> ->. exists v. split; [|auto].
    rewrite foldl_insert_notin by exact Hnot. apply lookup_insert_eq.
Qed.

Lemma mapR_total {A B} (f : A -> result B) (l : list A) :
  (forall x, In x l -> exists y, f x = Ok y) -> exists ys, mapR f l = Ok ys.
Proof.
  induction l as [|x l IH]; intros H; simpl; [eauto|].
  destruct (H x (or_introl eq_refl)) as [y ->]. simpl.
  assert (IH' : exists ys, mapR f l = Ok ys) by (apply IH; intros z Hz; apply H; right; exact Hz).
  destruct IH' as [ys ->]. simpl. eauto.
Qed.

(** ** C1: the fields [dump] emits *)

(** The entries of [dump()] for an instance whose required fields can
    all be retrieved. *)
Lemma dump_entries (i : Inst) :
  required_ok i -> class_wf (inst_cls i) ->
  exists m, dump i = Ok m /\
    forall k v, m !! k = Some v <->
      (exists f, cls_fields (inst_cls i) !! k = Some f /\
                 f_in_dump f = true /\ f_required f = true) /\
      getattr i k = Ok v /\ v <> VNone.
Proof.
  intros Hreq Hwf.
  set (g := fun f => let? n := field_name f in let? v := getattr i n in Ok (n, v)).
  set (L := filter (fun f => f_required f = true) (dump_fields (inst_cls i))).
  assert (HL : forall f, In f L <-> f_required f = true /\ f_in_dump f = true /\
                         exists k, cls_fields (inst_cls i) !! k = Some f).
  { intros f. unfold L, dump_fields. rewrite !In_filter, in_map_iff. split.
    - intros (Hr & Hd & [k f'] & Hf & Hin); simpl in Hf; subst f'.
      repeat split; auto. exists k. by apply in_registry.
    - intros (Hr & Hd & k & Hk). repeat split; auto. exists (k, f). split; [reflexivity|].
      by apply in_registry. }
  assert (Hg : forall f k, cls_fields (inst_cls i) !! k = Some f -> g f = let? v := getattr i k in Ok (k, v)).
  { intros f k Hk. unfold g, field_name. by rewrite (Hwf _ _ Hk). }
  destruct (mapR_total g L) as [pairs Hpairs].
  { intros f Hf. apply HL in Hf as (Hr & _ & k & Hk).
    destruct (Hreq k f Hk Hr) as [v Hv]. exists (k, v). rewrite (Hg _ _ Hk), Hv. reflexivity. }
  unfold dump. fold (dump_fields (inst_cls i)). fold L.
  replace (mapR _ L) with (mapR g L) by reflexivity. rewrite Hpairs. simpl.
  eexists; split; [reflexivity|].
  apply mapR_Ok in Hpairs.
  assert (Hp : forall k v, In (k, v) pairs -> getattr i k = Ok v /\
                 exists f, cls_fields (inst_cls i) !! k = Some f /\ f_in_dump f = true /\ f_required f = true).
  { intros k v Hin. destruct (Forall2_in_r _ _ _ _ Hpairs Hin) as (f & Hf & Hgf).
    apply HL in Hf as (Hr & Hd & k' & Hk'). rewrite (Hg _ _ Hk') in Hgf.
    destruct (getattr i k') eqn:Hga; simpl in Hgf; [|discriminate].
    injection Hgf as -> ->. eauto 6. }
  intros k v. split.
  - intros Hm. apply foldl_insert_some in Hm as [Hin|Hm]; [|by rewrite lookup_empty in Hm].
    apply In_filter in Hin as [Hn Hin]. simpl in Hn.
    destruct (Hp _ _ Hin) as [Hga Hf]. repeat split; auto. intros ->. discriminate.
  - intros ((f & Hk & Hd & Hr) & Hga & Hnn).
    assert (Hin : In (k, v) pairs).
    { assert (HfL : In f L) by (apply HL; eauto).
      destruct (Forall2_in_l _ _ _ _ Hpairs HfL) as (y & Hy & Hgy).
      rewrite (Hg _ _ Hk), Hga in Hgy. simpl in Hgy. injection Hgy as <-. exact Hy. }
    assert (Hin' : In (k, v) (filter (fun nv => is_none nv.2 = false) pairs)).
    { apply In_filter. split; [|exact Hin]. simpl. destruct v; try reflexivity. contradiction. }
    destruct (foldl_insert_in _ ∅ _ _ Hin') as (v' & Hm & Hin2).
    apply In_filter in Hin2 as [_ Hin2]. destruct (Hp _ _ Hin2) as [Hga' _].
    rewrite Hga in Hga'. injection Hga' as ->. exact Hm.
Qed.

(** C1. For every live instance of a well-formed class, [dump()] returns
    the mapping with exactly one entry [(name, value)] for each field
    that is in-dump and required and whose retrieved value is not
    [None]; in particular an in-dump field that is not required never
    appears, whatever it holds. *)
Theorem dump_exact (i : Inst) :
  live i -> class_wf (inst_cls i) ->
  exists m, dump i = Ok m /\
    forall k v, m !! k = Some v <->
      (exists f, cls_fields (inst_cls i) !! k = Some f /\
                 f_in_dump f = true /\ f_required f = true) /\
      getattr i k = Ok v /\ v <> VNone.
Proof.
  intros Hlive Hwf. apply dump_entries; [apply live_required|]; assumption.
Qed.


(** ** [find_or_none] *)

Lemma find_or_none_go_spec (key : string) (fuel : nat) (maps : list source) (idx : nat) :
  (forall j m, j < idx -> maps !! j = Some m -> m key = None) ->
  length maps * S (length maps) + (length maps - idx) < fuel ->
  find_or_none_go fuel key maps idx = first_non_null key maps.
Proof.
  revert maps idx; induction fuel as [|fuel IH]; intros maps idx Hskip Hfuel; [lia|].
  simpl. destruct (maps !! idx) as [m|] eqn:Hm.
  - pose proof (lookup_lt_Some _ _ _ Hm) as Hlt.
    destruct (m key) as [attr|] eqn:Hk.
    + destruct (is_none attr) eqn:Hn.
      * rewrite IH; [| intros j m' Hj; lia |].
        -- destruct maps as [|m0 ms]; [simpl in Hlt; lia|]. simpl.
           destruct idx as [|idx].
           ++ simpl in Hm. injection Hm as ->. by rewrite Hk, Hn.
           ++ rewrite (Hskip 0 m0); [reflexivity|lia|reflexivity].
        -- destruct maps as [|m0 ms]; simpl in *; nia.
      * clear IH Hfuel. revert idx Hskip Hm Hlt.
        induction maps as [|m0 ms IHm]; intros idx Hskip Hm Hlt; [simpl in Hlt; lia|].
        destruct idx as [|idx]; simpl in Hm |- *.
        -- injection Hm as ->. by rewrite Hk, Hn.
        -- rewrite (Hskip 0 m0); [|lia|reflexivity].
           apply (IHm idx); [|exact Hm|simpl in Hlt; lia].
           intros j m' Hj Hjm. apply (Hskip (S j)); [lia|exact Hjm].
    + apply IH; [|unfold source in *; set (X := length maps * S (length maps)) in *; lia].
      intros j m' Hj Hjm. destruct (decide (j = idx)) as [->|Hne].
      * rewrite Hm in Hjm. injection Hjm as <-. exact Hk.
      * apply (Hskip j); [lia|exact Hjm].
  - apply lookup_ge_None in Hm.
    clear IH Hfuel. revert idx Hskip Hm.
    induction maps as [|m0 ms IHm]; intros idx Hskip Hm; [reflexivity|].
    simpl in Hm |- *. rewrite (Hskip 0 m0); [|lia|reflexivity].
    destruct idx as [|idx]; [lia|].
    apply (IHm idx); [|lia]. intros j m' Hj Hjm. apply (Hskip (S j)); [lia|exact Hjm].
Qed.

(** [find_or_none] returns the first non-[None] value, scanning the
    objects in order (its restart on [search_maps[1:]] does not change
    the result). *)
Lemma find_or_none_first (key : string) (maps : list source) :
  find_or_none key maps = first_non_null key maps.
Proof.
  apply find_or_none_go_spec; [intros; lia|]. unfold find_or_none_fuel. lia.
Qed.

Lemma collect_spec (maps : list source) (fs : list (string * Field))
    (acc iv : gmap string val) :
  NoDup (map fst fs) -> collect maps fs acc = Ok iv ->
  (forall k, ~ In k (map fst fs) -> iv !! k = acc !! k) /\
  (forall k f, In (k, f) fs ->
     let v := first_non_null k maps in
     (is_none v = false ->
        (is_enum f = false -> iv !! k = Some v) /\
        (forall e, f_kind f = KEnum e -> exists w, enum_call e v = Ok w /\ iv !! k = Some w)) /\
     (is_none v = true -> f_required f = false -> iv !! k = acc !! k)).
Proof.
  revert acc; induction fs as [|[k0 f0] fs IH]; intros acc Hnd H; simpl in *.
  - injection H as ->. split; [reflexivity|]. intros k f [].
  - inversion Hnd as [|? ? Hnin Hnd']; subst. rewrite list_elem_of_In in Hnin.
    rewrite find_or_none_first in H.
    destruct (negb (is_none (first_non_null k0 maps)) || f_required f0) eqn:Hc.
    + destruct (match f_kind f0 with KEnum e => enum_call e (first_non_null k0 maps)
                | _ => Ok (first_non_null k0 maps) end) as [w|e] eqn:Hw; simpl in H; [|discriminate].
      destruct (IH _ Hnd' H) as [Hout Hin]. split.
      * intros k Hk. rewrite Hout by tauto. apply lookup_insert_ne. tauto.
      * intros k f [Heq|Hkf].
        -- injection Heq as <- <-. rewrite Hout by exact Hnin. rewrite lookup_insert_eq.
           split.
           ++ intros Hnn. unfold is_enum. split.
              ** destruct (f_kind f0); try (injection Hw as <-; reflexivity); discriminate.
              ** intros e He. rewrite He in Hw. eauto.
           ++ intros Hn Hr. rewrite Hn, Hr in Hc. discriminate.
        -- destruct (Hin k f Hkf) as [Hi1 Hi2]. split; [exact Hi1|].
           intros Hn Hr. rewrite (Hi2 Hn Hr). apply lookup_insert_ne.
           intros ->. apply Hnin, in_map_iff. exists (k, f). auto.
    + destruct (IH _ Hnd' H) as [Hout Hin]. split.
      * intros k Hk. apply Hout. tauto.
      * intros k f [Heq|Hkf].
        -- injection Heq as <- <-. apply orb_false_iff in Hc as [Hc1 Hc2].
           apply negb_false_iff in Hc1. split; [congruence|].
           intros _ _. apply Hout. exact Hnin.
        -- apply Hin. exact Hkf.
Qed.


Lemma field_set_only (f : Field) (v : val) (d d' : store) (r : result unit) (n k : string) :
  field_set f v d = (d', r) -> f_name f = Some n -> k <> n -> d' !! k = d !! k.
Proof.
  intros Hs Hn Hk. destruct r as [u|e].
  - destruct (field_set_ok _ _ _ _ _ Hs) as (n' & w & b & Hn' & _ & ->).
    rewrite Hn in Hn'; injection Hn' as <-.
    destruct b; [by apply lookup_insert_ne|by apply lookup_delete_ne].
  - by apply field_set_err in Hs as ->.
Qed.

Lemma set_each_untouched (fs : list (string * Field)) (kw : gmap string val)
    (s s' : store) (r : result unit) (k : string) :
  (forall k' f', In (k', f') fs -> f_name f' = Some k') ->
  kw !! k = None -> set_each fs kw s = (s', r) -> s' !! k = s !! k.
Proof.
  revert s; induction fs as [|[k0 f0] fs IH]; intros s Hnames Hkw Hs; simpl in Hs.
  - unfold sret in Hs. injection Hs as <- _. reflexivity.
  - unfold sbind in Hs.
    destruct (match kw !! k0 with Some v => field_set f0 v | None => sret tt end s)
      as [s1 [u|e]] eqn:H1.
    + rewrite (IH s1) by (auto; intros k' f' Hin; apply Hnames; right; exact Hin).
      destruct (kw !! k0) as [v|] eqn:Hk0.
      * eapply field_set_only; [exact H1|apply Hnames; left; reflexivity|].
        intros ->. congruence.
      * unfold sret in H1. injection H1 as <-. reflexivity.
    + injection Hs as <- _.
      destruct (kw !! k0) as [v|] eqn:Hk0.
      * eapply field_set_only; [exact H1|apply Hnames; left; reflexivity|].
        intros ->. congruence.
      * unfold sret in H1. injection H1 as <-. reflexivity.
Qed.

Lemma construct_dict (c : EClass) (kw : gmap string val) (i : Inst) (k : string) :
  class_wf c -> construct c kw = Ok i -> kw !! k = None -> inst_dict i !! k = None.
Proof.
  intros Hwf. unfold construct. destruct (kw !! "self"); [discriminate|].
  unfold sbind. destruct (set_each (registry c) kw ∅) as [s [u|e]] eqn:Hs; [|discriminate].
  unfold entity_validate.
  destruct (mapR _ _) as [[|v0 vs]|e]; [discriminate| |destruct e; discriminate].
  intros H Hk; injection H as <-. simpl.
  rewrite (set_each_untouched _ _ _ _ _ _ (fun k' f' Hin => Hwf k' f' (proj1 (in_registry c k' f') Hin)) Hk Hs).
  apply lookup_empty.
Qed.

(** ** C5: the priority search of [create_from_objects] *)

(** C5. [create_from_objects] gives each registry field the first
    non-[None] value found in the overrides, then in each source object
    in order, an absent attribute and a [None] one both meaning "keep
    searching" (for an enum field the value is first coerced with
    [field.type(value)]); an optional field for which no value is found
    is left out of [init_vars], so the new instance stores nothing for it
    and reads its default. *)
Theorem create_from_objects_priority (c : EClass) (objects : list source)
    (ov iv : gmap string val) (k : string) (f : Field) :
  init_vars_of c objects ov = Ok iv ->
  cls_fields c !! k = Some f ->
  let v := first_non_null k (AttrDict ov :: objects) in
  (is_none v = false ->
     (is_enum f = false -> iv !! k = Some v) /\
     (forall e, f_kind f = KEnum e -> exists w, enum_call e v = Ok w /\ iv !! k = Some w)) /\
  (is_none v = true -> f_required f = false ->
     iv !! k = None /\
     forall i, class_wf c -> create_from_objects c objects ov = Ok i -> inst_dict i !! k = None).
Proof.
  intros Hiv Hk v.
  destruct (collect_spec _ _ _ _ (NoDup_fst_map_to_list _) Hiv) as [_ Hin].
  destruct (Hin k f (proj2 (in_registry c k f) Hk)) as [H1 H2]. split; [exact H1|].
  intros Hn Hr. assert (Hnone : iv !! k = None) by (rewrite (H2 Hn Hr); apply lookup_empty).
  split; [exact Hnone|].
  intros i Hwf Hc. unfold create_from_objects in Hc.
  destruct (ov !! "cls"); [discriminate Hc|]. rewrite Hiv in Hc. simpl in Hc.
  eapply construct_dict; eauto.
Qed.

(** ** C10: a required enum field with no value anywhere *)

Lemma first_non_null_none (key : string) (maps : list source) :
  (forall m, In m maps -> forall v, m key = Some v -> v = VNone) ->
  first_non_null key maps = VNone.
Proof.
  induction maps as [|m ms IH]; intros H; simpl; [reflexivity|].
  destruct (m key) as [v|] eqn:Hm.
  - rewrite (H m (or_introl eq_refl) v Hm). simpl. apply IH. intros; eapply H; eauto. right; auto.
  - apply IH. intros; eapply H; eauto. right; auto.
Qed.

Lemma enum_call_err (e : enum_class) (v : val) (x : exn) :
  enum_call e v = Err x -> exists msg, x = ValueError msg.
Proof.
  unfold enum_call. destruct (isinstance v (TEnum e)); [discriminate|].
  destruct (List.find _ _) as [[n r]|]; [discriminate|]. intros H; injection H as <-; eauto.
Qed.

Lemma enum_call_none (e : enum_class) :
  (forall n r, In (n, r) (e_members e) -> py_eq r VNone = false) ->
  exists msg, enum_call e VNone = Err (ValueError msg).
Proof.
  intros H. unfold enum_call. simpl.
  destruct (List.find (fun m => py_eq (snd m) VNone) (e_members e)) as [[n r]|] eqn:Hf.
  - apply find_some in Hf as [Hin Hp]. simpl in Hp. rewrite (H n r Hin) in Hp. discriminate.
  - eauto.
Qed.

Lemma collect_enum_missing (maps : list source) (fs : list (string * Field))
    (acc : gmap string val) (k : string) (f : Field) (e : enum_class) :
  In (k, f) fs -> f_kind f = KEnum e -> f_required f = true ->
  first_non_null k maps = VNone ->
  (forall n r, In (n, r) (e_members e) -> py_eq r VNone = false) ->
  exists msg, collect maps fs acc = Err (ValueError msg).
Proof.
  intros Hin Hke Hr Hv He. revert acc.
  induction fs as [|[k0 f0] fs IH]; intros acc; [contradiction|]. simpl.
  rewrite find_or_none_first.
  destruct Hin as [Heq|Hin].
  - injection Heq as -> ->. rewrite Hv, Hr, Hke. simpl.
    destruct (enum_call_none e He) as [msg ->]. simpl. eauto.
  - destruct (negb (is_none (first_non_null k0 maps)) || f_required f0).
    + destruct (match f_kind f0 with KEnum e0 => enum_call e0 (first_non_null k0 maps)
                | _ => Ok (first_non_null k0 maps) end) as [w|x] eqn:Hw; simpl.
      * apply IH. exact Hin.
      * destruct (f_kind f0); try discriminate. apply enum_call_err in Hw as [msg ->]. eauto.
    + apply IH. exact Hin.
Qed.

(** C10 (amended). For a class with a required [EnumField] whose
    enumeration has no member with value [None], [create_from_objects]
    called without an override named [cls] raises the plain [ValueError]
    of [E(None)], not a [ValidationError], when neither the overrides nor
    any source has a non-[None] value for that field; no instance is
    produced. *)
Theorem create_from_objects_enum_missing (c : EClass) (objects : list source)
    (ov : gmap string val) (k : string) (f : Field) (e : enum_class) :
  cls_fields c !! k = Some f -> f_kind f = KEnum e -> f_required f = true ->
  (forall m, In m (AttrDict ov :: objects) -> forall v, m k = Some v -> v = VNone) ->
  (forall n r, In (n, r) (e_members e) -> py_eq r VNone = false) ->
  ov !! "cls" = None ->
  exists msg, create_from_objects c objects ov = Err (ValueError msg).
Proof.
  intros Hk Hke Hr Hsrc He Hcls. unfold create_from_objects, init_vars_of. rewrite Hcls.
  destruct (collect_enum_missing (AttrDict ov :: objects) (registry c) ∅ k f e)
    as [msg Hc]; auto.
  - by apply in_registry.
  - by apply first_non_null_none.
  - rewrite Hc. simpl. eauto.
Qed.


(** ** C2: invalid defaults fail the class statement *)

Lemma mapR_err_in {A B} (f : A -> result B) (l : list A) (x : A) (e : exn) :
  In x l -> f x = Err e -> exists e', mapR f l = Err e'.
Proof.
  induction l as [|y l IH]; intros Hin Hx; [contradiction|]. simpl.
  destruct Hin as [->|Hin].
  - rewrite Hx. simpl. eauto.
  - destruct (f y) as [z|e']; simpl; [|eauto].
    destruct (IH Hin Hx) as [e' ->]. simpl. eauto.
Qed.

Lemma pre_convert_not_none (f : Field) (v d : val) :
  v <> VNone -> pre_convert f v = Ok d -> d <> VNone.
Proof.
  intros Hv. unfold pre_convert.
  destruct (f_kind f).
  1-3: intros H; injection H as <-; exact Hv.
  - destruct v as [| | | |str| | | | |]; try contradiction;
      try (intros H; injection H as <-; discriminate).
    destruct (parse_date str); [intros H; injection H as <-; discriminate|discriminate].
  - intros H. destruct (negb (is_none v) && negb (isinstance v (TEnum e))).
    + unfold enum_call in H. destruct (isinstance v (TEnum e)); [injection H as <-; exact Hv|].
      destruct (List.find _ _) as [[? ?]|]; [injection H as <-; discriminate|discriminate].
    + injection H as <-; exact Hv.
  - intros H. destruct (is_none v) eqn:Hn; [destruct v; try discriminate; contradiction|].
    destruct (py_iter v); simpl in H; [|discriminate].
    destruct (mapR _ _); simpl in H; [|discriminate].
    injection H as <-; discriminate.
Qed.

(** C2. If a field declared in a class body has a non-[None] default
    that its own type check or custom validator rejects (or that its
    variant cannot even pre-convert), executing the class statement
    raises: the class is never created, and no later use is needed to
    reveal the bad default. *)
Theorem define_class_rejects_invalid_default (cid : positive) (name : string)
    (parent : option EClass) (body : list (string * field_args)) (n : string) (a : field_args) :
  In (n, a) body -> fa_default a <> VNone ->
  (forall d, pre_convert (field_base a) (fa_default a) = Ok d ->
     exists e, validate (with_default (field_base a) d) d = Err e) ->
  exists e, define_class cid name parent body = Err e.
Proof.
  intros Hin Hd Hbad.
  assert (Hf : exists e, field_init a = Err e).
  { unfold field_init.
    destruct (pre_convert (field_base a) (fa_default a)) as [d|e] eqn:Hp; simpl; [|eauto].
    pose proof (pre_convert_not_none _ _ _ Hd Hp) as Hdn.
    destruct (is_none d) eqn:Hn; [destruct d; try discriminate; contradiction|].
    destruct (Hbad d eq_refl) as [e He]. rewrite He. simpl. eauto. }
  destruct Hf as [e He].
  destruct (mapR_err_in (fun na => let? f := field_init na.2 in Ok (na.1, f)) body (n, a) e)
    as [e' He']; [exact Hin|simpl; rewrite He; reflexivity|].
  unfold define_class. rewrite He'. simpl. eauto.
Qed.

Lemma define_class_wf (cid : positive) (name : string) (parent : option EClass)
    (body : list (string * field_args)) (c : EClass) :
  (forall p, parent = Some p -> class_wf p) ->
  define_class cid name parent body = Ok c -> class_wf c.
Proof.
  intros Hp. unfold define_class.
  destruct (mapR _ body) as [fields|e]; simpl; [|discriminate].
  intros H; injection H as <-. unfold class_wf; simpl.
  assert (Hbase : forall k f, (match parent with Some p => cls_fields p | None => ∅ end) !! k = Some f ->
                              f_name f = Some k).
  { destruct parent as [p|]; [apply (Hp p eq_refl)|]. intros k f Hk. by rewrite lookup_empty in Hk. }
  revert Hbase. generalize (match parent with Some p => cls_fields p | None => ∅ end).
  induction fields as [|[n f] fields IH]; intros r Hr; simpl; [exact Hr|].
  apply IH. intros k g Hk. destruct (String.eqb_spec n k) as [->|Hne].
  - rewrite lookup_insert_eq in Hk. injection Hk as <-. reflexivity.
  - rewrite lookup_insert_ne in Hk by exact Hne. by apply Hr.
Qed.


(** ** C6 and C7: assignments *)

Lemma first_bad_element (f : Field) (n : string) (et : ftype) (els : list val) :
  f_name f = Some n ->
  (exists el, In el els /\ isinstance el et = false) ->
  exists pre el post, els = app pre (el :: post) /\
    Forall (fun x => isinstance x et = true) pre /\ isinstance el et = false /\
    mapR (fun el => if isinstance el et then Ok el
                    else let? n := field_name f in
                         Err (ValidationError (Some n) (Some el) (Some et) None)) els =
    Err (ValidationError (Some n) (Some el) (Some et) None).
Proof.
  intros Hn. unfold field_name. rewrite Hn. simpl.
  induction els as [|x els IH]; intros [el [Hin Hbad]]; [contradiction|]. simpl.
  destruct (isinstance x et) eqn:Hx.
  - destruct Hin as [->|Hin]; [congruence|].
    destruct IH as (pre & el' & post & -> & Hpre & Hbad' & ->); [eauto|]. simpl.
    exists (x :: pre), el', post. split; [reflexivity|]. split; [constructor; assumption|]. auto.
  - simpl. exists [], x, els. split; [reflexivity|]. split; [constructor|]. auto.
Qed.

(** An enum raw value equal to no member's value is refused. *)
Lemma enum_set_nomatch (f : Field) (n : string) (d : store) (e : enum_class) (v : val) :
  f_name f = Some n -> f_kind f = KEnum e -> v <> VNone -> isinstance v (TEnum e) = false ->
  (forall m r, In (m, r) (e_members e) -> py_eq r v = false) ->
  field_set f v d = (d, Err (ValidationError (Some n) (Some v) (Some (TEnum e)) None)).
Proof.
  intros Hn Hk Hv Hi Hnm. unfold field_set, catch, sbind, lift, pre_convert, field_name.
  rewrite Hk, Hn, Hi. unfold enum_call. rewrite Hi.
  destruct (is_none v) eqn:Hnv; [destruct v; try discriminate; contradiction|]. simpl.
  destruct (List.find (fun m => py_eq (snd m) v) (e_members e)) as [[m r]|] eqn:Hf.
  - apply find_some in Hf as [Hin Hp]. simpl in Hp. rewrite (Hnm m r Hin) in Hp. discriminate.
  - reflexivity.
Qed.

(** C6 (amended). For every named field and every store: an assignment
    that raises leaves the store unchanged; when the value to store,
    after the variant's coercion and after calling it if it is callable,
    does not have the declared type (and is not [None] on an optional
    field), the assignment raises a [ValidationError] carrying the field
    name, that value and the declared type; a date string that does not
    parse, or an enum raw value with no member, raises a
    [ValidationError] with the field name, the original value and the
    declared type; a sequence with an element of the wrong type raises a
    [ValidationError] with the field name, the first offending element
    (all elements before it having the element type) and the element
    type; assigning [None] to a non-required field
    succeeds and removes the stored value. *)
Theorem assignment_validation (f : Field) (n : string) (d : store) :
  f_name f = Some n ->
  (forall v d' e, field_set f v d = (d', Err e) -> d' = d) /\
  (forall v v', pre_convert f v = Ok v' ->
     isinstance (call v') (field_type f) = false ->
     ~ (is_none (call v') = true /\ f_required f = false) ->
     field_set f v d =
       (d, Err (ValidationError (Some n) (Some (call v')) (Some (field_type f)) None))) /\
  (forall str, f_kind f = KDate -> parse_date str = None ->
     field_set f (VStr str) d =
       (d, Err (ValidationError (Some n) (Some (VStr str)) (Some TDatetime) None))) /\
  (forall e v, f_kind f = KEnum e -> v <> VNone -> isinstance v (TEnum e) = false ->
     (forall m r, In (m, r) (e_members e) -> py_eq r v = false) ->
     field_set f v d =
       (d, Err (ValidationError (Some n) (Some v) (Some (TEnum e)) None))) /\
  (forall et v els, f_kind f = KList et -> v <> VNone -> py_iter v = Ok els ->
     (exists el, In el els /\ isinstance el et = false) ->
     exists pre el post, els = app pre (el :: post) /\
       Forall (fun x => isinstance x et = true) pre /\ isinstance el et = false /\
       field_set f v d = (d, Err (ValidationError (Some n) (Some el) (Some et) None))) /\
  (f_required f = false -> field_set f VNone d = (delete n d, Ok tt)).
Proof.
  intros Hn.
  assert (Hbase : forall v', isinstance (call v') (field_type f) = false ->
     ~ (is_none (call v') = true /\ f_required f = false) ->
     base_set f v' d =
       (d, Err (ValidationError (Some n) (Some (call v')) (Some (field_type f)) None))).
  { intros v' Hi Hnr. unfold base_set, sbind, lift, validate, name_or_undefined.
    rewrite Hi, Hn. simpl.
    destruct (is_none (call v')) eqn:Hc, (f_required f) eqn:Hr; simpl;
      try reflexivity; exfalso; apply Hnr; auto. }
  split; [intros v d' e; apply field_set_err|].
  split.
  { intros v v' Hp Hi Hnr. specialize (Hbase v' Hi Hnr).
    unfold field_set, catch, sbind, lift.
    destruct (f_kind f) eqn:Hk; try (unfold pre_convert in Hp; rewrite Hk in Hp;
                                       injection Hp as <-; exact Hbase).
    - rewrite Hp. simpl. rewrite Hbase. reflexivity.
    - rewrite Hp. simpl. rewrite Hbase. reflexivity.
    - rewrite Hp. simpl. exact Hbase. }
  split.
  { intros str Hk Hp. unfold field_set, catch, sbind, lift, pre_convert, field_name.
    rewrite Hk, Hp, Hn. reflexivity. }
  split; [intros e v; apply enum_set_nomatch; assumption|].
  split.
  { intros et v els Hk Hv Hit Hbad.
    destruct (first_bad_element f n et els Hn Hbad) as (pre & el & post & Hels & Hpre & Hel & Hm).
    exists pre, el, post. split; [exact Hels|]. split; [exact Hpre|]. split; [exact Hel|].
    unfold field_set, sbind, lift, pre_convert. rewrite Hk.
    destruct (is_none v) eqn:Hnv; [destruct v; try discriminate; contradiction|]. simpl.
    rewrite Hit. simpl. rewrite Hm. reflexivity. }
  { intros Hr.
    assert (Hb : base_set f VNone d = (delete n d, Ok tt)).
    { unfold base_set, sbind, lift, modify, validate, field_name. simpl. rewrite Hr, Hn.
      destruct (field_type f); reflexivity. }
    unfold field_set, catch, sbind, lift, pre_convert.
    destruct (f_kind f); simpl; rewrite ?Hb; reflexivity. }
Qed.

(** C7 (amended). Setting an [EnumField] to a non-[None] raw value that
    is not already a member and equals the value of some member stores
    the member found by [E(value)] (a member whose value equals it),
    provided the custom validator, if any, accepts that member; reading
    the field then returns that member's underlying value.  A raw value
    equal to no member's value raises a [ValidationError]. *)
Theorem enum_field_set_raw (f : Field) (e : enum_class) (k : string) (v : val) (d : store) :
  f_kind f = KEnum e -> f_name f = Some k -> v <> VNone -> isinstance v (TEnum e) = false ->
  ((exists m r, In (m, r) (e_members e) /\ py_eq r v = true) ->
   (forall w, enum_call e v = Ok w -> validator_accepts f w) ->
   exists m r, In (m, r) (e_members e) /\ py_eq r v = true /\
     field_set f v d = (<[k := VMember (e_name e) m r]> d, Ok tt) /\
     field_get f (<[k := VMember (e_name e) m r]> d) = Ok r) /\
  ((forall m r, In (m, r) (e_members e) -> py_eq r v = false) ->
   exists err, field_set f v d = (d, Err err) /\
     err = ValidationError (Some k) (Some v) (Some (TEnum e)) None).
Proof.
  intros Hk Hn Hv Hi.
  assert (Hnv : is_none v = false) by (destruct v; try reflexivity; contradiction).
  split.
  - intros [m0 [r0 [Hin0 Heq0]]] Hacc.
    destruct (List.find (fun m => py_eq (snd m) v) (e_members e)) as [[m r]|] eqn:Hf.
    + pose proof (find_some _ _ Hf) as [Hin Hp]. simpl in Hp.
      exists m, r. split; [exact Hin|]. split; [exact Hp|].
      assert (Hval : validate f (VMember (e_name e) m r) = Ok true).
      { unfold validate, field_type. rewrite Hk. simpl. rewrite String.eqb_refl. simpl.
        assert (Hw : enum_call e v = Ok (VMember (e_name e) m r))
          by (unfold enum_call; rewrite Hi, Hf; reflexivity).
        specialize (Hacc _ Hw). unfold validator_accepts in Hacc.
        destruct (f_validation f) as [p|]; [rewrite Hacc|]; reflexivity. }
      split.
      * unfold field_set, catch, sbind, lift, pre_convert, base_set, modify, field_name.
        rewrite Hk, Hnv, Hi. simpl. unfold enum_call. rewrite Hi, Hf. simpl.
        rewrite Hval, Hn. reflexivity.
      * unfold field_get, base_get, field_name. rewrite Hk, Hn. simpl.
        rewrite lookup_insert_eq. reflexivity.
    + exfalso. eapply find_none in Hf; [|exact Hin0]. simpl in Hf. congruence.
  - intros Hnm. eexists. split; [|reflexivity].
    apply (enum_set_nomatch f k d e v); assumption.
Qed.


(** ** C4: reloading a dump *)

Lemma py_eq_refl (v : val) : py_eq v v = true.
Proof.
  revert v. fix IH 1. intros v. destruct v; simpl.
  - reflexivity.
  - destruct b; reflexivity.
  - apply Qeq_bool_refl.
  - apply Qeq_bool_refl.
  - apply String.eqb_refl.
  - unfold dt_eqb. rewrite !Z.eqb_refl. reflexivity.
  - induction l as [|x l IHl]; [reflexivity|]. rewrite IH. exact IHl.
  - induction l as [|x l IHl]; [reflexivity|]. rewrite IH. exact IHl.
  - rewrite !String.eqb_refl. reflexivity.
  - apply Pos.eqb_refl.
Qed.

Lemma call_inst (w : val) (t : ftype) : isinstance w t = true -> call w = w.
Proof. destruct w, t; simpl; intros H; try reflexivity; discriminate. Qed.

Lemma find_member (l : list (string * val)) (n : string) (r : val) :
  (forall i j a b, l !! i = Some a -> l !! j = Some b -> py_eq a.2 b.2 = true -> i = j) ->
  In (n, r) l -> List.find (fun m => py_eq (snd m) r) l = Some (n, r).
Proof.
  induction l as [|x l IH]; intros Hd Hin; [contradiction|]. simpl.
  destruct (py_eq (snd x) r) eqn:Hx.
  - apply list_elem_of_In, list_elem_of_lookup in Hin as [j Hj].
    assert (E : 0 = j) by (apply (Hd 0 j x (n, r)); [reflexivity|exact Hj|exact Hx]).
    subst j. simpl in Hj. injection Hj as ->. reflexivity.
  - destruct Hin as [->|Hin]; [change (py_eq r r = false) in Hx; rewrite py_eq_refl in Hx; discriminate|].
    apply IH; [|exact Hin].
    intros i j a b Ha Hb Hab. assert (S i = S j) by (apply (Hd (S i) (S j) a b); assumption).
    lia.
Qed.

Lemma base_get_cases (f : Field) (k : string) (d : store) (w : val) :
  f_name f = Some k -> base_get f d = Ok w ->
  (exists s, d !! k = Some s /\ w = call s) \/
  (d !! k = None /\ is_none (f_default f) = false /\ w = call (f_default f)).
Proof.
  intros Hn. unfold base_get, field_name. rewrite Hn. simpl.
  destruct (d !! k) as [s|]; intros H.
  - injection H as <-. eauto.
  - destruct (is_none (f_default f)); simpl in H; [discriminate|]. injection H as <-. auto.
Qed.

Lemma field_get_base (f : Field) (d : store) (v : val) :
  field_get f d = Ok v -> exists w, base_get f d = Ok w.
Proof.
  unfold field_get. destruct (f_kind f); eauto;
    destruct (base_get f d); simpl; eauto; discriminate.
Qed.

Lemma field_get_of_base (f : Field) (d1 d2 : store) :
  base_get f d1 = base_get f d2 -> field_get f d1 = field_get f d2.
Proof. intros H. unfold field_get. rewrite H. reflexivity. Qed.

Lemma field_get_wf (f : Field) (d : store) (w : val) :
  base_get f d = Ok w -> wf_value f w -> exists v, field_get f d = Ok v.
Proof.
  intros Hb (Hi & _ & _). unfold field_get. rewrite Hb. simpl.
  unfold field_type in Hi. destruct (f_kind f); eauto; destruct w; try discriminate; eauto.
Qed.

Lemma base_set_wf (f : Field) (k : string) (w : val) (d : store) :
  f_name f = Some k -> wf_value f w -> base_set f w d = (<[k := w]> d, Ok tt).
Proof.
  intros Hn (Hi & Ha & _). unfold base_set, sbind, lift, modify, validate, field_name.
  rewrite (call_inst _ _ Hi), Hi, Hn. simpl. unfold validator_accepts in Ha.
  destruct (f_validation f) as [p|]; [rewrite Ha|]; reflexivity.
Qed.

Lemma mapR_id {A} (g : A -> result A) (l : list A) :
  (forall x, In x l -> g x = Ok x) -> mapR g l = Ok l.
Proof.
  induction l as [|x l IH]; intros Hg; [reflexivity|]. simpl.
  rewrite Hg by (left; reflexivity). simpl.
  rewrite IH by (intros y Hy; apply Hg; right; exact Hy). reflexivity.
Qed.

(** Setting a field to the value it retrieves stores again the value it
    held (after calling it). *)
Lemma reset_field (f : Field) (k : string) (d0 d : store) (w v : val) :
  f_name f = Some k -> base_get f d0 = Ok w -> wf_value f w ->
  field_get f d0 = Ok v -> v <> VNone ->
  (f_kind f = KDate -> forall dt, parse_date (isoformat dt) = Some dt) ->
  (forall e, f_kind f = KEnum e -> enum_wf e) ->
  field_set f v d = (<[k := w]> d, Ok tt).
Proof.
  intros Hn Hb Hw Hg Hv Hdate Henum.
  pose proof (base_set_wf f k w d Hn Hw) as Hs.
  destruct Hw as (Hi & Ha & Hk).
  unfold field_get in Hg. rewrite Hb in Hg. simpl in Hg.
  unfold field_set, catch, sbind, lift.
  unfold field_type in Hi. destruct (f_kind f) as [| | | |e|et] eqn:Hkd; simpl in Hg.
  - injection Hg as <-. exact Hs.
  - injection Hg as <-. exact Hs.
  - injection Hg as <-. exact Hs.
  - destruct w as [| | | | |dt| | | |]; try discriminate. injection Hg as <-.
    unfold pre_convert. rewrite Hkd, (Hdate eq_refl dt). simpl. rewrite Hs. reflexivity.
  - destruct Hk as (n & r & -> & Hin). injection Hg as <-.
    destruct (Henum e eq_refl) as [Hd Hni].
    unfold pre_convert. rewrite Hkd, (Hni n r Hin).
    destruct (is_none r) eqn:Hr; [destruct r; try discriminate; contradiction|]. simpl.
    unfold enum_call. rewrite (Hni n r Hin), (find_member _ n r Hd Hin). simpl.
    rewrite Hs. reflexivity.
  - destruct Hk as (l & -> & Hl). injection Hg as <-.
    unfold pre_convert. rewrite Hkd. simpl.
    rewrite mapR_id; [exact Hs|].
    intros x Hx. rewrite Forall_forall in Hl. rewrite Hl by (by apply list_elem_of_In). reflexivity.
Qed.


Lemma field_set_pc (f : Field) (v : val) (d d' : store) (u : unit) :
  field_set f v d = (d', Ok u) ->
  exists n w b, f_name f = Some n /\ pre_convert f v = Ok w /\ validate f w = Ok b /\
                d' = if b then <[n := w]> d else delete n d.
Proof.
  unfold field_set, catch, sbind, lift. intros H.
  destruct (f_kind f) eqn:Hk;
    try (destruct (base_set_ok _ _ _ _ _ H) as (n & b & ?);
         exists n, v, b; unfold pre_convert; rewrite Hk; tauto).
  - destruct (pre_convert f v) as [v'|ex0] eqn:Hp; simpl in H.
    + destruct (base_set f v' d) as [s0 [a|e1]] eqn:Hb.
      * injection H as <- <-. destruct (base_set_ok _ _ _ _ _ Hb) as (n & b & ?); exists n, v', b; tauto.
      * destruct e1; unfold field_name in H; crush_se.
    + destruct ex0; unfold field_name in H; crush_se.
  - destruct (pre_convert f v) as [v'|ex0] eqn:Hp; simpl in H.
    + destruct (base_set f v' d) as [s0 [a|e1]] eqn:Hb.
      * injection H as <- <-. destruct (base_set_ok _ _ _ _ _ Hb) as (n & b & ?); exists n, v', b; tauto.
      * destruct e1; unfold field_name in H; crush_se.
    + destruct ex0; unfold field_name in H; crush_se.
  - destruct (pre_convert f v) as [v'|ex0] eqn:Hp; simpl in H; [|discriminate].
    destruct (base_set_ok _ _ _ _ _ H) as (n & b & ?); exists n, v', b; tauto.
Qed.

Lemma validate_true_accepts (f : Field) (w : val) :
  validate f w = Ok true -> validator_accepts f (call w).
Proof.
  unfold validate, validator_accepts.
  destruct (isinstance (call w) (field_type f)); simpl.
  - destruct (f_validation f) as [p|]; [destruct (p (call w)); [reflexivity|discriminate]|auto].
  - destruct (is_none (call w) && negb (f_required f)); discriminate.
Qed.

Lemma pre_convert_wf (f : Field) (v w : val) :
  pre_convert f v = Ok w -> validate f w = Ok true ->
  (forall e n r, f_kind f = KEnum e -> v = VMember (e_name e) n r -> In (n, r) (e_members e)) ->
  wf_value f (call w).
Proof.
  intros Hp Hv Hgen.
  pose proof (validate_true_inst f w Hv) as Hi.
  pose proof (validate_true_accepts f w Hv) as Ha.
  split; [exact Hi|]. split; [exact Ha|].
  unfold pre_convert in Hp. unfold field_type in Hi.
  destruct (f_kind f) as [| | | |e|et] eqn:Hk; auto.
  - destruct (negb (is_none v) && negb (isinstance v (TEnum e))) eqn:Hc.
    + unfold enum_call in Hp. apply andb_true_iff in Hc as [_ Hc].
      apply negb_true_iff in Hc. rewrite Hc in Hp.
      destruct (List.find (fun m => py_eq (snd m) v) (e_members e)) as [[n r]|] eqn:Hf;
        [|discriminate].
      injection Hp as <-. apply find_some in Hf as [Hin _]. simpl. eauto.
    + injection Hp as <-.
      destruct v as [| | | | | | | |x n r|]; simpl in Hi, Hc; try discriminate.
      apply String.eqb_eq in Hi. subst x. exists n, r. split; [reflexivity|].
      eapply Hgen; reflexivity.
  - destruct (is_none v) eqn:Hn.
    + injection Hp as <-. discriminate.
    + destruct (py_iter v) as [els|ex0]; simpl in Hp; [|discriminate].
      destruct (mapR _ els) as [l|ex0] eqn:Hm; simpl in Hp; [|discriminate].
      injection Hp as <-. exists l. split; [reflexivity|].
      apply mapR_Ok in Hm. clear -Hm.
      induction Hm as [|x y xs ys Hxy Hr IH]; constructor; [|exact IH].
      destruct (isinstance x et) eqn:Hx; [injection Hxy as <-; exact Hx|].
      unfold field_name in Hxy. destruct (f_name f); discriminate.
Qed.

(** Every field's stored value, in [store] [d], is one the field accepts. *)
Lemma set_each_wf (c : EClass) (kw : gmap string val) (fs : list (string * Field))
    (d d' : store) (u : unit) :
  class_wf c -> kw_genuine c kw ->
  (forall k f, In (k, f) fs -> cls_fields c !! k = Some f) ->
  (forall k f s, cls_fields c !! k = Some f -> d !! k = Some s -> wf_value f (call s)) ->
  set_each fs kw d = (d', Ok u) ->
  forall k f s, cls_fields c !! k = Some f -> d' !! k = Some s -> wf_value f (call s).
Proof.
  intros Hwf Hgen. revert d. induction fs as [|[k f] fs IH]; intros d Hfs Hd Hs.
  - simpl in Hs. unfold sret in Hs. injection Hs as <- _. exact Hd.
  - simpl in Hs. unfold sbind in Hs.
    assert (Hkf : cls_fields c !! k = Some f) by (apply Hfs; left; reflexivity).
    destruct (kw !! k) as [v|] eqn:Hkw.
    + destruct (field_set f v d) as [d1 [a|ex0]] eqn:Hset; [|discriminate].
      apply (IH d1); [intros; apply Hfs; right; assumption| |exact Hs].
      destruct (field_set_pc _ _ _ _ _ Hset) as (n & w & b & Hn & Hp & Hv & ->).
      pose proof (Hwf _ _ Hkf) as Hn'. rewrite Hn in Hn'. injection Hn' as ->.
      intros k' f' s' Hf' Hs'.
      destruct (String.eqb_spec k' k) as [->|Hne].
      * rewrite Hkf in Hf'. injection Hf' as <-.
        destruct b; [|by rewrite lookup_delete_eq in Hs'].
        rewrite lookup_insert_eq in Hs'. injection Hs' as <-.
        apply (pre_convert_wf f v); [exact Hp|exact Hv|].
        intros e n r Hk ->. eapply Hgen; eauto.
      * eapply Hd; [exact Hf'|].
        destruct b; [by rewrite lookup_insert_ne in Hs'|by rewrite lookup_delete_ne in Hs'].
    + unfold sret in Hs.
      apply (IH d); [intros; apply Hfs; right; assumption|exact Hd|exact Hs].
Qed.

Lemma construct_shape (c : EClass) (kw : gmap string val) (i : Inst) :
  construct c kw = Ok i ->
  kw !! "self" = None /\ inst_cls i = c /\
  (exists u, set_each (registry c) kw ∅ = (inst_dict i, Ok u)) /\
  exists k f, cls_fields c !! k = Some f /\ f_required f = true.
Proof.
  unfold construct. destruct (kw !! "self"); [discriminate|].
  unfold sbind. destruct (set_each (registry c) kw ∅) as [s [u|e]] eqn:Hse; [|discriminate].
  unfold entity_validate.
  destruct (mapR _ _) as [vs|e] eqn:Hm; [|destruct e; discriminate].
  destruct vs as [|v0 vs]; [discriminate|].
  intros H; injection H as <-. split; [reflexivity|]. split; [reflexivity|].
  split; [eauto|].
  apply mapR_Ok in Hm. inversion Hm as [|[k f] ? l ? _ _ Hl]; subst.
  assert (Hin : In (k, f) (filter (fun kf => f_required kf.2 = true) (registry c)))
    by (rewrite <- Hl; left; reflexivity).
  apply In_filter in Hin as [Hr Hin]. apply in_registry in Hin. eauto.
Qed.

Lemma construct_ok (c : EClass) (kw : gmap string val) (d : store) (u : unit) :
  kw !! "self" = None -> set_each (registry c) kw ∅ = (d, Ok u) ->
  (forall k f, cls_fields c !! k = Some f -> f_required f = true ->
     exists v, field_get f d = Ok v) ->
  (exists k f, cls_fields c !! k = Some f /\ f_required f = true) ->
  construct c kw = Ok (mk_Inst c d).
Proof.
  intros Hself Hse Hreq [k [f [Hk Hr]]]. unfold construct. rewrite Hself.
  unfold sbind. rewrite Hse. unfold entity_validate.
  destruct (mapR_total (fun kf : string * Field => field_get kf.2 d)
              (filter (fun kf => f_required kf.2 = true) (registry c))) as [ys Hys].
  { intros [k' f'] Hin. apply In_filter in Hin as [Hr' Hin]. apply in_registry in Hin.
    exact (Hreq k' f' Hin Hr'). }
  rewrite Hys. destruct ys as [|y ys]; [|reflexivity].
  apply mapR_Ok in Hys. inversion Hys as [Hnil|]. exfalso.
  assert (Hin : In (k, f) (filter (fun kf => f_required kf.2 = true) (registry c)))
    by (apply In_filter; split; [exact Hr|by apply in_registry]).
  rewrite <- Hnil in Hin. exact Hin.
Qed.

(** Running the constructor's loop when each field's assignment stores
    a value determined by its key. *)
Lemma set_each_reset (fs : list (string * Field)) (kw : gmap string val) (g : string -> val)
    (d : store) :
  (forall k f v d0, In (k, f) fs -> kw !! k = Some v ->
     field_set f v d0 = (<[k := g k]> d0, Ok tt)) ->
  exists d', set_each fs kw d = (d', Ok tt) /\
    (forall k f v, In (k, f) fs -> kw !! k = Some v -> d' !! k = Some (g k)) /\
    (forall k, kw !! k = None \/ ~ In k (map fst fs) -> d' !! k = d !! k).
Proof.
  revert d. induction fs as [|[k f] fs IH]; intros d Hset.
  - exists d. simpl. split; [reflexivity|]. split; [intros ? ? ? []|reflexivity].
  - simpl. unfold sbind.
    assert (IH' : forall d0, exists d', set_each fs kw d0 = (d', Ok tt) /\
      (forall k f v, In (k, f) fs -> kw !! k = Some v -> d' !! k = Some (g k)) /\
      (forall k, kw !! k = None \/ ~ In k (map fst fs) -> d' !! k = d0 !! k))
      by (intros d0; apply IH; intros; apply Hset; [right|]; assumption).
    destruct (kw !! k) as [v|] eqn:Hkw.
    + rewrite (Hset k f v d (or_introl eq_refl) Hkw).
      destruct (IH' (<[k := g k]> d)) as (d' & Hs & Hin & Hout).
      exists d'. split; [exact Hs|]. split.
      * intros k' f' v' [Heq|Hin'] Hk'; [|eapply Hin; eauto].
        injection Heq as -> ->.
        destruct (in_dec string_dec k' (map fst fs)) as [Hm|Hm].
        -- apply in_map_iff in Hm as [[k2 f2] [Hk2 Hm]]. simpl in Hk2; subst k2.
           eapply Hin; eauto.
        -- rewrite Hout by (right; exact Hm). apply lookup_insert_eq.
      * intros k' Hk'. rewrite Hout by (destruct Hk' as [?|Hn]; [left; assumption|right; tauto]).
        apply lookup_insert_ne. intros ->. destruct Hk' as [Hk'|Hn]; [congruence|tauto].
    + unfold sret. destruct (IH' d) as (d' & Hs & Hin & Hout).
      exists d'. split; [exact Hs|]. split.
      * intros k' f' v' [Heq|Hin'] Hk'; [injection Heq as -> ->; congruence|eapply Hin; eauto].
      * intros k' Hk'. apply Hout. destruct Hk' as [?|Hn]; [left; assumption|right; tauto].
Qed.


(** C4 (amended). Let [c] be a well-formed class (fields bound to their
    names, defaults valid for their fields, no field named [self], enum
    fields over enums whose members have pairwise unequal values that
    are not themselves members, and [isoformat] parsed back exactly if
    it has date fields), and [i = c( **kw)] an instance built from
    keyword data whose enum members are genuine.  If every required
    field that [dump()] omits (not in-dump, or retrieving [None]) has a
    default, then [load(i.dump())] succeeds and every required in-dump
    field whose value on [i] is not [None] retrieves the same value on
    the reloaded instance. *)
Theorem load_dump_roundtrip (c : EClass) (kw : gmap string val) (i : Inst) :
  class_wf c -> defaults_ok c -> cls_fields c !! "self" = None ->
  (forall k f e, cls_fields c !! k = Some f -> f_kind f = KEnum e -> enum_wf e) ->
  (forall k f, cls_fields c !! k = Some f -> f_kind f = KDate ->
     forall dt, parse_date (isoformat dt) = Some dt) ->
  kw_genuine c kw ->
  construct c kw = Ok i ->
  (forall k f, cls_fields c !! k = Some f -> f_required f = true ->
     (f_in_dump f = false \/ getattr i k = Ok VNone) -> is_none (f_default f) = false) ->
  exists m i', dump i = Ok m /\ load c m = Ok i' /\
    forall k f v, cls_fields c !! k = Some f -> f_required f = true -> f_in_dump f = true ->
      getattr i k = Ok v -> v <> VNone -> getattr i' k = Ok v.
Proof.
  intros Hwf Hdef Hself Henum Hdate Hgen Hc Hmiss.
  destruct (construct_shape _ _ _ Hc) as (Hkwself & Hcls & [u Hse] & Hreq1).
  destruct (construct_required _ _ _ Hc) as [_ Hreq].
  assert (Hinv : forall k f s, cls_fields c !! k = Some f -> inst_dict i !! k = Some s ->
                   wf_value f (call s)).
  { apply (set_each_wf c kw (registry c) ∅ (inst_dict i) u Hwf Hgen); [| |exact Hse].
    - intros k f H. by apply in_registry.
    - intros k f s _ H. by rewrite lookup_empty in H. }
  assert (Hwfi : class_wf (inst_cls i)) by (rewrite Hcls; exact Hwf).
  destruct (dump_entries i Hreq Hwfi) as (m & Hm & Hment).
  unfold required_ok in Hreq. rewrite Hcls in Hment, Hreq.
  set (d0 := inst_dict i) in *.
  assert (Hget : forall k f, cls_fields c !! k = Some f -> getattr i k = field_get f d0).
  { intros k f Hk. unfold getattr. rewrite Hcls, Hk. reflexivity. }
  assert (Hval : forall k f w, cls_fields c !! k = Some f -> base_get f d0 = Ok w ->
                   wf_value f w).
  { intros k f w Hk Hb.
    destruct (base_get_cases f k d0 w (Hwf _ _ Hk) Hb) as [(s & Hs & ->)|(_ & Hnn & ->)];
      [eapply Hinv; eauto|eapply Hdef; eauto]. }
  set (g := fun k => match cls_fields c !! k with
                     | Some f => match base_get f d0 with Ok w => w | Err _ => VNone end
                     | None => VNone
                     end).
  assert (Hset : forall k f v d, In (k, f) (registry c) -> m !! k = Some v ->
                   field_set f v d = (<[k := g k]> d, Ok tt)).
  { intros k f v d Hin Hmk. apply in_registry in Hin.
    apply Hment in Hmk as (_ & Hga & Hnn). rewrite (Hget _ _ Hin) in Hga.
    destruct (field_get_base _ _ _ Hga) as [w Hb].
    unfold g. rewrite Hin, Hb.
    eapply reset_field; [apply Hwf; exact Hin|exact Hb|eapply Hval; eauto|exact Hga|exact Hnn|
                         intros Hk; eapply Hdate; eauto|intros e Hk; eapply Henum; eauto]. }
  destruct (set_each_reset (registry c) m g ∅ Hset) as (d' & Hse' & Hin' & Hout').
  assert (Hsame : forall k f v, cls_fields c !! k = Some f -> m !! k = Some v ->
                    field_get f d' = Ok v).
  { intros k f v Hk Hmk.
    pose proof (Hin' k f v (proj2 (in_registry _ _ _) Hk) Hmk) as Hd'.
    apply Hment in Hmk as (_ & Hga & _). rewrite (Hget _ _ Hk) in Hga.
    destruct (field_get_base _ _ _ Hga) as [w Hb].
    rewrite <- Hga. apply field_get_of_base. rewrite Hb.
    unfold g in Hd'. rewrite Hk, Hb in Hd'.
    destruct (Hval k f w Hk Hb) as [Hi _].
    unfold base_get, field_name. rewrite (Hwf _ _ Hk). simpl. rewrite Hd'. simpl.
    rewrite (call_inst _ _ Hi). reflexivity. }
  exists m, (mk_Inst c d'). split; [exact Hm|]. split.
  - unfold load. apply (construct_ok c m d' tt); [|exact Hse'| |exact Hreq1].
    + destruct (m !! "self") eqn:Hms; [|reflexivity].
      apply Hment in Hms as ((f & Hf & _) & _). congruence.
    + intros k f Hk Hr. destruct (m !! k) as [v|] eqn:Hmk; [exists v; eapply Hsame; eauto|].
      assert (Hnn : is_none (f_default f) = false).
      { apply (Hmiss k f Hk Hr).
        destruct (Hreq k f Hk Hr) as [v Hga].
        destruct (f_in_dump f) eqn:Hd; [right|left; reflexivity].
        destruct (is_none v) eqn:Hv; [destruct v; try discriminate; exact Hga|].
        assert (Hmv : m !! k = Some v).
        { apply Hment. split; [exists f; auto|]. split; [exact Hga|].
          intros ->. discriminate. }
        congruence. }
      apply field_get_wf with (call (f_default f)); [|eapply Hdef; eauto].
      unfold base_get, field_name. rewrite (Hwf _ _ Hk). simpl.
      rewrite Hout' by (left; exact Hmk). rewrite lookup_empty, Hnn. reflexivity.
  - intros k f v Hk Hr Hd Hga Hnn.
    assert (Hmk : m !! k = Some v) by (apply Hment; split; [exists f; auto|auto]).
    unfold getattr. simpl. rewrite Hk. eapply Hsame; eauto.
Qed.


(** ** C3: construction *)

(** C3 (code). A class none of whose fields is required can never be
    instantiated: [Entity.validate] reduces an empty sequence without an
    initial value, so every constructor call raises. *)
Theorem no_required_never_constructs (c : EClass) (kw : gmap string val) :
  (forall k f, cls_fields c !! k = Some f -> f_required f = false) ->
  forall i, construct c kw <> Ok i.
Proof.
  intros Hopt i Hc. destruct (construct_shape _ _ _ Hc) as (_ & _ & _ & k & f & Hk & Hr).
  rewrite (Hopt k f Hk) in Hr. discriminate.
Qed.

(** ** Keys outside the registry *)

Lemma set_each_same (fs : list (string * Field)) (kw kw' : gmap string val) :
  (forall k f, In (k, f) fs -> kw !! k = kw' !! k) -> set_each fs kw = set_each fs kw'.
Proof.
  induction fs as [|[k f] fs IH]; intros H; [reflexivity|]. simpl.
  rewrite (H k f (or_introl eq_refl)), IH by (intros; eapply H; right; eassumption).
  reflexivity.
Qed.

(** Keys that are not field names, apart from [self], do not change
    what the constructor does. *)
Lemma construct_unknown_keys (c : EClass) (kw kw' : gmap string val) :
  (forall k, In k (map fst (registry c)) -> kw !! k = kw' !! k) ->
  kw !! "self" = None -> kw' !! "self" = None -> construct c kw = construct c kw'.
Proof.
  intros H H1 H2. unfold construct. rewrite H1, H2.
  rewrite (set_each_same (registry c) kw kw'); [reflexivity|].
  intros k f Hin. apply H, in_map_iff. exists (k, f). auto.
Qed.


(** ** Further properties of the module *)

(** *** Helpers *)

Lemma validate_false_none (f : Field) (w : val) :
  validate f w = Ok false -> call w = VNone.
Proof.
  unfold validate. destruct (isinstance (call w) (field_type f)); simpl.
  - destruct (f_validation f) as [p|]; [destruct (p (call w))|]; discriminate.
  - destruct (call w); simpl; intros H; try discriminate H; reflexivity.
Qed.

Lemma base_set_result (f : Field) (v : val) (d1 d2 : store) :
  (base_set f v d1).2 = (base_set f v d2).2.
Proof.
  unfold base_set, sbind, lift, modify. destruct (validate f v) as [b|e]; [|reflexivity].
  destruct (field_name f); [|reflexivity]. destruct b; reflexivity.
Qed.

(** Whether an assignment raises does not depend on the instance's
    [__dict__]. *)
Lemma field_set_result (f : Field) (v : val) (d1 d2 : store) :
  (field_set f v d1).2 = (field_set f v d2).2.
Proof.
  unfold field_set, catch, sbind, lift.
  destruct (f_kind f); try apply base_set_result;
    destruct (pre_convert f v) as [w|e0]; simpl;
    try (destruct e0; unfold field_name; destruct (f_name f); reflexivity);
    try apply base_set_result;
    (destruct (base_set f w d1) as [s1 r1] eqn:H1, (base_set f w d2) as [s2 r2] eqn:H2;
     pose proof (base_set_result f w d1 d2) as E; rewrite H1, H2 in E; simpl in E; subst r2;
     destruct r1 as [u|ex]; [reflexivity|];
     destruct ex; unfold field_name; destruct (f_name f); reflexivity).
Qed.

Lemma set_each_outside (fs : list (string * Field)) (kw : gmap string val)
    (s s' : store) (r : result unit) (k : string) :
  (forall k' f', In (k', f') fs -> f_name f' = Some k') ->
  ~ In k (map fst fs) -> set_each fs kw s = (s', r) -> s' !! k = s !! k.
Proof.
  revert s; induction fs as [|[k0 f0] fs IH]; intros s Hnames Hk Hs; simpl in Hs.
  - unfold sret in Hs. injection Hs as <- _. reflexivity.
  - assert (Hne : k <> k0) by (intros ->; apply Hk; left; reflexivity).
    assert (Hk' : ~ In k (map fst fs)) by (intros H; apply Hk; right; exact H).
    unfold sbind in Hs.
    destruct (match kw !! k0 with Some v => field_set f0 v | None => sret tt end s)
      as [s1 [u|e]] eqn:H1.
    + rewrite (IH s1 (fun k' f' Hin => Hnames k' f' (or_intror Hin)) Hk' Hs).
      destruct (kw !! k0) as [v|].
      * eapply field_set_only; [exact H1|apply Hnames; left; reflexivity|exact Hne].
      * unfold sret in H1. injection H1 as <-. reflexivity.
    + injection Hs as <- _.
      destruct (kw !! k0) as [v|].
      * eapply field_set_only; [exact H1|apply Hnames; left; reflexivity|exact Hne].
      * unfold sret in H1. injection H1 as <-. reflexivity.
Qed.

Lemma set_each_ok_each (fs : list (string * Field)) (kw : gmap string val) (d d' : store)
    (u : unit) :
  set_each fs kw d = (d', Ok u) -> forall k f v, In (k, f) fs -> kw !! k = Some v ->
  exists d1 d2, field_set f v d1 = (d2, Ok tt).
Proof.
  revert d; induction fs as [|[k0 f0] fs IH]; intros d Hs k f v Hin Hv; [contradiction|].
  simpl in Hs. unfold sbind in Hs.
  destruct (match kw !! k0 with Some v => field_set f0 v | None => sret tt end d)
    as [s1 [u1|e]] eqn:H1; [|discriminate Hs].
  destruct Hin as [Heq|Hin].
  - injection Heq as -> ->. rewrite Hv in H1. destruct u1. eauto.
  - eapply IH; eauto.
Qed.

Lemma set_each_all_ok (fs : list (string * Field)) (kw : gmap string val) (d : store) :
  (forall k f v, In (k, f) fs -> kw !! k = Some v -> (field_set f v ∅).2 = Ok tt) ->
  exists d', set_each fs kw d = (d', Ok tt).
Proof.
  revert d; induction fs as [|[k f] fs IH]; intros d H; simpl.
  - eexists; reflexivity.
  - unfold sbind. destruct (kw !! k) as [v|] eqn:Hk.
    + pose proof (H k f v (or_introl eq_refl) Hk) as Hs.
      rewrite (field_set_result f v ∅ d) in Hs.
      destruct (field_set f v d) as [d1 r] eqn:Hd; simpl in Hs; subst r.
      apply IH. intros k' f' v' Hin Hv'. exact (H k' f' v' (or_intror Hin) Hv').
    + unfold sret. apply IH. intros k' f' v' Hin Hv'. exact (H k' f' v' (or_intror Hin) Hv').
Qed.

Lemma set_each_last (fs : list (string * Field)) (kw : gmap string val) (d d' : store)
    (u : unit) (k : string) (f : Field) (v : val) :
  (forall k' f', In (k', f') fs -> f_name f' = Some k') -> NoDup (map fst fs) ->
  set_each fs kw d = (d', Ok u) -> In (k, f) fs -> kw !! k = Some v ->
  exists d1 d2, field_set f v d1 = (d2, Ok tt) /\ d' !! k = d2 !! k.
Proof.
  revert d; induction fs as [|[k0 f0] fs IH]; intros d Hnames Hnd Hs Hin Hv; [contradiction|].
  inversion Hnd as [|? ? Hnin Hnd']; subst. rewrite list_elem_of_In in Hnin.
  simpl in Hs. unfold sbind in Hs.
  destruct (match kw !! k0 with Some v => field_set f0 v | None => sret tt end d)
    as [s1 [u1|e]] eqn:H1; [|discriminate Hs].
  destruct Hin as [Heq|Hin].
  - injection Heq as -> ->. rewrite Hv in H1. destruct u1. exists d, s1. split; [exact H1|].
    eapply set_each_outside; [|exact Hnin|exact Hs].
    intros k' f' Hin'. exact (Hnames k' f' (or_intror Hin')).
  - eapply IH; [|exact Hnd'|exact Hs|exact Hin|exact Hv].
    intros k' f' Hin'. exact (Hnames k' f' (or_intror Hin')).
Qed.

(** A plain field ([IntField], [StringField], [NumberField]) stores the
    assigned value itself. *)
Lemma plain_set_store (f : Field) (n : string) (v : val) (d d' : store) :
  f_name f = Some n -> (f_kind f = KInt \/ f_kind f = KString \/ f_kind f = KNumber) ->
  field_set f v d = (d', Ok tt) -> call v <> VNone -> d' = <[n := v]> d.
Proof.
  intros Hn Hk Hs Hv. destruct (field_set_pc _ _ _ _ _ Hs) as (n' & w & b & Hn' & Hp & Hval & ->).
  rewrite Hn in Hn'. injection Hn' as <-.
  assert (w = v) as ->
    by (unfold pre_convert in Hp; destruct Hk as [Hk|[Hk|Hk]]; rewrite Hk in Hp;
        injection Hp as <-; reflexivity).
  destruct b; [reflexivity|]. apply validate_false_none in Hval. contradiction.
Qed.

Lemma collect_enum_err (maps : list source) (fs : list (string * Field))
    (acc : gmap string val) (k : string) (f : Field) (e : enum_class) (x : exn) :
  In (k, f) fs -> f_kind f = KEnum e -> is_none (find_or_none k maps) = false ->
  enum_call e (find_or_none k maps) = Err x ->
  exists msg, collect maps fs acc = Err (ValueError msg).
Proof.
  intros Hin Hke Hv Hx. revert acc.
  induction fs as [|[k0 f0] fs IH]; intros acc; [contradiction|]. simpl.
  destruct Hin as [Heq|Hin].
  - injection Heq as -> ->. rewrite Hv, Hke. simpl. rewrite Hx. simpl.
    apply enum_call_err in Hx as [msg ->]. eauto.
  - destruct (negb (is_none (find_or_none k0 maps)) || f_required f0).
    + destruct (match f_kind f0 with KEnum e0 => enum_call e0 (find_or_none k0 maps)
                | _ => Ok (find_or_none k0 maps) end) as [w|y] eqn:Hw; simpl.
      * apply IH. exact Hin.
      * destruct (f_kind f0); try discriminate Hw. apply enum_call_err in Hw as [msg ->]. eauto.
    + apply IH. exact Hin.
Qed.

Lemma define_fold (body : list (string * field_args)) (fields : list (string * Field))
    (r : gmap string Field) :
  Forall2 (fun na nf => exists f, field_init na.2 = Ok f /\ nf = (na.1, f)) body fields ->
  forall k, match (list_to_map (List.rev body) : gmap string field_args) !! k with
    | Some a => exists f, field_init a = Ok f /\
        foldl (fun r nf => <[nf.1 := set_name nf.2 nf.1]> r) r fields !! k = Some (set_name f k)
    | None => foldl (fun r nf => <[nf.1 := set_name nf.2 nf.1]> r) r fields !! k = r !! k
    end.
Proof.
  intros H. revert r. induction H as [|[n a] nf body fields (f & Hf & ->) Hrest IH]; intros r k.
  - simpl. rewrite lookup_empty. reflexivity.
  - specialize (IH (<[n := set_name f n]> r) k). simpl foldl.
    change (List.rev ((n, a) :: body)) with (app (List.rev body) [(n, a)]).
    rewrite list_to_map_app, lookup_union, list_to_map_cons, list_to_map_nil.
    destruct (list_to_map (List.rev body) !! k) as [a'|] eqn:Hb.
    + destruct (<[n := a]> (∅ : gmap string field_args) !! k); exact IH.
    + simpl in IH. rewrite IH. destruct (String.eq_dec n k) as [->|Hne].
      * rewrite !lookup_insert_eq. simpl. eauto.
      * rewrite !lookup_insert_ne by exact Hne. rewrite lookup_empty. reflexivity.
Qed.

(** *** [find_or_none] *)

(** [find_or_none(key, search_maps)] returns [None] exactly when every
    object lacks [key] or holds [None] there; otherwise it returns the
    value of the first object (in order) holding a non-[None] value. *)
Theorem find_or_none_result (key : string) (maps : list source) :
  (find_or_none key maps = VNone /\
   forall m, In m maps -> m key = None \/ m key = Some VNone) \/
  (exists j m v, maps !! j = Some m /\ m key = Some v /\ v <> VNone /\
     find_or_none key maps = v /\
     forall j' m', j' < j -> maps !! j' = Some m' -> m' key = None \/ m' key = Some VNone).
Proof.
  rewrite find_or_none_first. induction maps as [|m ms IH]; simpl.
  - left. split; [reflexivity|]. intros m [].
  - destruct (m key) as [v|] eqn:Hm.
    + destruct (is_none v) eqn:Hn.
      * destruct v; try discriminate Hn.
        destruct IH as [[H1 H2]|(j & m' & v' & Hj & Hk & Hv & Hr & Hb)].
        -- left. split; [exact H1|]. intros m0 [<-|Hin]; [right; exact Hm|auto].
        -- right. exists (S j), m', v'. split; [exact Hj|]. split; [exact Hk|].
           split; [exact Hv|]. split; [exact Hr|].
           intros [|j'] m0 Hlt Hm0; simpl in Hm0.
           ++ injection Hm0 as <-. right; exact Hm.
           ++ apply (Hb j'); [lia|exact Hm0].
      * right. exists 0, m, v. split; [reflexivity|]. split; [exact Hm|].
        split; [intros ->; discriminate Hn|]. split; [reflexivity|]. intros j' m' Hlt; lia.
    + destruct IH as [[H1 H2]|(j & m' & v' & Hj & Hk & Hv & Hr & Hb)].
      * left. split; [exact H1|]. intros m0 [<-|Hin]; [left; exact Hm|auto].
      * right. exists (S j), m', v'. split; [exact Hj|]. split; [exact Hk|].
        split; [exact Hv|]. split; [exact Hr|].
        intros [|j'] m0 Hlt Hm0; simpl in Hm0.
        -- injection Hm0 as <-. left; exact Hm.
        -- apply (Hb j'); [lia|exact Hm0].
Qed.

(** *** Reading back an assignment *)

(** Assigning [v] to an [IntField], [StringField] or [NumberField]
    stores [v] itself (a callable uncalled) and reading the field then
    returns [v], or its result when [v] is callable. *)
Theorem plain_set_get (f : Field) (n : string) (v : val) (d d' : store) :
  f_name f = Some n -> (f_kind f = KInt \/ f_kind f = KString \/ f_kind f = KNumber) ->
  field_set f v d = (d', Ok tt) -> call v <> VNone ->
  d' = <[n := v]> d /\ field_get f d' = Ok (call v).
Proof.
  intros Hn Hk Hs Hv. pose proof (plain_set_store f n v d d' Hn Hk Hs Hv) as ->.
  split; [reflexivity|]. unfold field_get.
  destruct Hk as [Hk|[Hk|Hk]]; rewrite Hk; unfold base_get, field_name; rewrite Hn; simpl;
    rewrite lookup_insert_eq; reflexivity.
Qed.

(** A [DateField] assigned a datetime, or a string that
    [dateutil.parser.parse] reads as that datetime, stores the datetime
    and reads back as its [isoformat()] string. *)
Theorem date_set_get (f : Field) (n : string) (v : val) (dt : datetime) (d d' : store) :
  f_name f = Some n -> f_kind f = KDate ->
  (v = VDate dt \/ exists s, v = VStr s /\ parse_date s = Some dt) ->
  field_set f v d = (d', Ok tt) ->
  d' = <[n := VDate dt]> d /\ field_get f d' = Ok (VStr (isoformat dt)).
Proof.
  intros Hn Hk Hv Hs.
  destruct (field_set_pc _ _ _ _ _ Hs) as (n' & w & b & Hn' & Hp & Hval & ->).
  rewrite Hn in Hn'. injection Hn' as <-.
  assert (w = VDate dt) as ->.
  { unfold pre_convert in Hp. rewrite Hk in Hp. destruct Hv as [->|(s & -> & Hps)].
    - injection Hp as <-. reflexivity.
    - rewrite Hps in Hp. injection Hp as <-. reflexivity. }
  destruct b; [|apply validate_false_none in Hval; discriminate Hval].
  split; [reflexivity|]. unfold field_get. rewrite Hk.
  unfold base_get, field_name. rewrite Hn. simpl. rewrite lookup_insert_eq. reflexivity.
Qed.

(** Assigning to a field the value it reads back ([x.f = x.f]) leaves
    the instance unchanged, when the stored value is one the field
    accepts (for a date field, when parsing [isoformat()] gives the
    datetime back; for an enum field, when the enum's members have
    pairwise unequal values that are not members themselves). *)
Theorem reassign_read_value (f : Field) (n : string) (d : store) (w v : val) :
  f_name f = Some n -> d !! n = Some w -> wf_value f w ->
  field_get f d = Ok v -> v <> VNone ->
  (f_kind f = KDate -> forall dt, parse_date (isoformat dt) = Some dt) ->
  (forall e, f_kind f = KEnum e -> enum_wf e) ->
  field_set f v d = (d, Ok tt).
Proof.
  intros Hn Hd Hw Hg Hv Hdate Henum.
  assert (Hb : base_get f d = Ok w).
  { unfold base_get, field_name. rewrite Hn. simpl. rewrite Hd. simpl.
    rewrite (call_inst w (field_type f)); [reflexivity|apply Hw]. }
  rewrite (reset_field f n d d w v Hn Hb Hw Hg Hv Hdate Henum).
  rewrite insert_id by exact Hd. reflexivity.
Qed.

(** *** [ListField] *)

(** Assigning a non-[None] iterable (a list, a tuple, or a string,
    which iterates over its characters) to a [ListField] succeeds only if
    every element has the element type; it then stores, and reads back,
    the tuple of the elements. *)
Theorem list_set_get (f : Field) (n : string) (et : ftype) (v : val) (els : list val)
    (d d' : store) :
  f_name f = Some n -> f_kind f = KList et -> v <> VNone -> py_iter v = Ok els ->
  field_set f v d = (d', Ok tt) ->
  Forall (fun x => isinstance x et = true) els /\ d' = <[n := VTuple els]> d /\
  field_get f d' = Ok (VTuple els).
Proof.
  intros Hn Hk Hv Hi Hs.
  destruct (field_set_pc _ _ _ _ _ Hs) as (n' & w & b & Hn' & Hp & Hval & ->).
  rewrite Hn in Hn'. injection Hn' as <-.
  unfold pre_convert in Hp. rewrite Hk in Hp.
  destruct (is_none v) eqn:Hnv; [destruct v; try discriminate Hnv; contradiction|].
  rewrite Hi in Hp. simpl in Hp.
  destruct (mapR _ els) as [l|x] eqn:Hm; simpl in Hp; [|discriminate Hp]. injection Hp as <-.
  assert (Hl : l = els /\ Forall (fun x => isinstance x et = true) els).
  { apply mapR_Ok in Hm. clear -Hm.
    induction Hm as [|x y xs ys Hxy _ [IH1 IH2]]; [split; [reflexivity|constructor]|].
    destruct (isinstance x et) eqn:Hx.
    - injection Hxy as <-. subst ys. split; [reflexivity|constructor; assumption].
    - unfold field_name in Hxy. destruct (f_name f); discriminate Hxy. }
  destruct Hl as [-> Hall].
  destruct b; [|apply validate_false_none in Hval; discriminate Hval].
  split; [exact Hall|]. split; [reflexivity|].
  unfold field_get. rewrite Hk. unfold base_get, field_name. rewrite Hn. simpl.
  rewrite lookup_insert_eq. reflexivity.
Qed.

(** Assigning a non-iterable value other than [None] (a number, a
    datetime, an enum member, a callable) to a [ListField] raises a
    [TypeError], not a [ValidationError], and leaves [__dict__]
    unchanged. *)
Theorem list_set_not_iterable (f : Field) (et : ftype) (v : val) (d : store) (x : exn) :
  f_kind f = KList et -> v <> VNone -> py_iter v = Err x ->
  field_set f v d = (d, Err x) /\ exists msg, x = TypeError msg.
Proof.
  intros Hk Hv Hi. split.
  - unfold field_set. rewrite Hk. unfold sbind, lift, pre_convert. rewrite Hk.
    destruct (is_none v) eqn:Hn; [destruct v; try discriminate Hn; contradiction|].
    rewrite Hi. reflexivity.
  - destruct v; simpl in Hi; try discriminate Hi; injection Hi as <-; eauto.
Qed.

(** *** Class definition *)

(** Errors of a field declaration's own conversion of its default
    escape unwrapped when the class body runs: a [DateField] whose
    default string does not parse, and an [EnumField] whose default
    matches no member, raise [ValueError]; a [ListField] whose default
    has an element of the wrong type raises [AttributeError], since the
    field's name is not yet set when the [ValidationError] is built. *)
Theorem field_init_conversion_errors (a : field_args) :
  (forall s, fa_kind a = KDate -> fa_default a = VStr s -> parse_date s = None ->
     exists msg, field_init a = Err (ValueError msg)) /\
  (forall e, fa_kind a = KEnum e -> fa_default a <> VNone ->
     isinstance (fa_default a) (TEnum e) = false ->
     (forall n r, In (n, r) (e_members e) -> py_eq r (fa_default a) = false) ->
     exists msg, field_init a = Err (ValueError msg)) /\
  (forall et els el, fa_kind a = KList et -> py_iter (fa_default a) = Ok els ->
     In el els -> isinstance el et = false ->
     exists msg, field_init a = Err (AttributeError msg)).
Proof.
  unfold field_init, pre_convert. change (f_kind (field_base a)) with (fa_kind a).
  split; [|split].
  - intros s Hk Hd Hp. rewrite Hk, Hd, Hp. simpl. eauto.
  - intros e Hk Hd Hi Hm. rewrite Hk, Hi.
    destruct (is_none (fa_default a)) eqn:Hn; [destruct (fa_default a); try discriminate Hn; contradiction|].
    simpl. unfold enum_call. rewrite Hi.
    destruct (List.find (fun m => py_eq (snd m) (fa_default a)) (e_members e)) as [[n r]|] eqn:Hf.
    + apply find_some in Hf as [Hin Hp]. simpl in Hp. rewrite (Hm n r Hin) in Hp. discriminate Hp.
    + simpl. eauto.
  - intros et els el Hk Hi Hin Hel. rewrite Hk.
    destruct (is_none (fa_default a)) eqn:Hn; [destruct (fa_default a); try discriminate Hn; discriminate Hi|].
    rewrite Hi. simpl.
    destruct (mapR_err_in (fun el => if isinstance el et then Ok el
                                     else Err (AttributeError "'Field' object has no attribute '_name'"))
                els el (AttributeError "'Field' object has no attribute '_name'") Hin)
      as [e' He']; [rewrite Hel; reflexivity|].
    rewrite He'. simpl.
    destruct (mapR_Err_exists _ _ _ He') as (x & _ & Hx).
    destruct (isinstance x et); [discriminate Hx|]. injection Hx as <-. eauto.
Qed.

(** The class statement [class name(parent): body] builds the class
    whose registry maps each name declared in the body to its (last)
    declaration's field, bound to that name, and every other name to the
    parent's field: a subclass inherits its parent's fields and
    overrides those it redeclares. *)
Theorem define_class_registry (cid : positive) (name : string) (parent : option EClass)
    (body : list (string * field_args)) (c : EClass) :
  define_class cid name parent body = Ok c ->
  cls_id c = cid /\ cls_name c = name /\
  forall k, match (list_to_map (List.rev body) : gmap string field_args) !! k with
            | Some a => exists f, field_init a = Ok f /\ cls_fields c !! k = Some (set_name f k)
            | None => cls_fields c !! k =
                        match parent with Some p => cls_fields p !! k | None => None end
            end.
Proof.
  unfold define_class.
  destruct (mapR _ body) as [fields|e] eqn:Hm; simpl; [|discriminate].
  intros H; injection H as <-. simpl. split; [reflexivity|]. split; [reflexivity|].
  intros k.
  assert (Hf : Forall2 (fun na nf => exists f, field_init na.2 = Ok f /\ nf = (na.1, f)) body fields).
  { apply mapR_Ok in Hm. clear -Hm. induction Hm as [|na nf body fields Hx _ IH]; constructor; [|exact IH].
    destruct (field_init na.2) as [f|e]; simpl in Hx; [|discriminate Hx].
    injection Hx as <-. eauto. }
  pose proof (define_fold body fields (match parent with Some p => cls_fields p | None => ∅ end) Hf k) as Hd.
  destruct (list_to_map (List.rev body) !! k); [exact Hd|].
  rewrite Hd. destruct parent; [reflexivity|apply lookup_empty].
Qed.

(** *** Construction *)

(** A field not passed to the constructor is left unset: reading it
    raises [AttributeError] when it has no default, and returns the
    default (called, if callable) for a plain field with one. *)
Theorem construct_unset_read (c : EClass) (kw : gmap string val) (i : Inst) (k : string)
    (f : Field) :
  class_wf c -> construct c kw = Ok i -> cls_fields c !! k = Some f -> kw !! k = None ->
  (f_default f = VNone ->
     getattr i k = Err (AttributeError ("A value for " ++ k ++ " has not been set"))) /\
  (is_none (f_default f) = false ->
     (f_kind f = KInt \/ f_kind f = KString \/ f_kind f = KNumber) ->
     getattr i k = Ok (call (f_default f))).
Proof.
  intros Hwf Hc Hk Hkw.
  pose proof (construct_dict c kw i k Hwf Hc Hkw) as Hd.
  destruct (construct_shape _ _ _ Hc) as (_ & Hcls & _).
  unfold getattr. rewrite Hcls, Hk. unfold field_get. split.
  - intros Hdef. destruct (f_kind f); unfold base_get, field_name; rewrite (Hwf _ _ Hk); simpl;
      rewrite Hd, Hdef; reflexivity.
  - intros Hn Hkd. destruct Hkd as [Hkd|[Hkd|Hkd]]; rewrite Hkd;
      unfold base_get, field_name; rewrite (Hwf _ _ Hk); simpl; rewrite Hd, Hn; reflexivity.
Qed.

(** A successful constructor call stores in [__dict__] only fields of
    the class that were passed as keywords, each holding a value of the
    field's type (after calling it, if callable) that its validator
    accepts: for an enum field a member of its enum, for a list field a
    tuple of elements of the element type. *)
Theorem construct_stored (c : EClass) (kw : gmap string val) (i : Inst) :
  class_wf c -> kw_genuine c kw -> construct c kw = Ok i ->
  inst_cls i = c /\
  forall k s, inst_dict i !! k = Some s ->
    exists f v, cls_fields c !! k = Some f /\ kw !! k = Some v /\ wf_value f (call s).
Proof.
  intros Hwf Hgen Hc. destruct (construct_shape _ _ _ Hc) as (_ & Hcls & [u Hse] & _).
  split; [exact Hcls|]. intros k s Hs.
  assert (Hn : forall k' f', In (k', f') (registry c) -> f_name f' = Some k')
    by (intros k' f' Hin; apply Hwf, in_registry, Hin).
  destruct (cls_fields c !! k) as [f|] eqn:Hk.
  - destruct (kw !! k) as [v|] eqn:Hkw.
    + exists f, v. split; [reflexivity|]. split; [reflexivity|].
      apply (set_each_wf c kw (registry c) ∅ (inst_dict i) u Hwf Hgen) with k;
        [| |exact Hse|exact Hk|exact Hs].
      * intros k' f' H. by apply in_registry.
      * intros k' f' s' _ H. by rewrite lookup_empty in H.
    + rewrite (set_each_untouched _ _ _ _ _ _ Hn Hkw Hse), lookup_empty in Hs. discriminate Hs.
  - assert (Hout : ~ In k (map fst (registry c)))
      by (rewrite in_registry_keys; intros [f Hf]; congruence).
    rewrite (set_each_outside _ _ _ _ _ _ Hn Hout Hse), lookup_empty in Hs. discriminate Hs.
Qed.

(** A keyword value that a field rejects (its assignment raises) makes
    every constructor call carrying it fail: no instance is produced. *)
Theorem construct_invalid_value (c : EClass) (kw : gmap string val) (k : string) (f : Field)
    (v : val) (e : exn) :
  cls_fields c !! k = Some f -> kw !! k = Some v -> (field_set f v ∅).2 = Err e ->
  forall i, construct c kw <> Ok i.
Proof.
  intros Hk Hv He i Hc. destruct (construct_shape _ _ _ Hc) as (_ & _ & [u Hse] & _).
  destruct (set_each_ok_each _ _ _ _ _ Hse k f v (proj2 (in_registry _ _ _) Hk) Hv)
    as (d1 & d2 & H).
  rewrite (field_set_result f v ∅ d1), H in He. discriminate He.
Qed.

(** When every value passed is accepted by its field, but a required
    field without default is not passed, the constructor raises
    [ValidationError(None, msg=...)] carrying the message of the
    [AttributeError] of a missing value. *)
Theorem construct_missing_required (c : EClass) (kw : gmap string val) (k : string)
    (f : Field) :
  class_wf c -> kw !! "self" = None ->
  (forall k' f' v, cls_fields c !! k' = Some f' -> kw !! k' = Some v ->
     (field_set f' v ∅).2 = Ok tt) ->
  cls_fields c !! k = Some f -> f_required f = true -> f_default f = VNone -> kw !! k = None ->
  exists m, construct c kw = Err (ValidationError None None None (Some m)).
Proof.
  intros Hwf Hself Hok Hk Hr Hd Hkw.
  destruct (set_each_all_ok (registry c) kw ∅) as [d Hse].
  { intros k' f' v Hin Hv. apply in_registry in Hin. eauto. }
  assert (Hdk : d !! k = None).
  { rewrite (set_each_untouched _ _ _ _ _ _
               (fun k' f' Hin => Hwf k' f' (proj1 (in_registry c k' f') Hin)) Hkw Hse).
    apply lookup_empty. }
  assert (Hget : exists e, field_get f d = Err e).
  { unfold field_get, base_get, field_name. rewrite (Hwf _ _ Hk). simpl. rewrite Hdk, Hd.
    simpl. destruct (f_kind f); eauto. }
  destruct Hget as [e He].
  unfold construct. rewrite Hself. unfold sbind. rewrite Hse. unfold entity_validate.
  destruct (mapR (fun kf : string * Field => field_get kf.2 d)
                 (filter (fun kf => f_required kf.2 = true) (registry c))) as [ys|e'] eqn:Hm.
  - exfalso. apply mapR_Ok in Hm.
    destruct (Forall2_in_l _ _ _ (k, f) Hm) as (y & _ & Hy).
    + apply In_filter. split; [exact Hr|by apply in_registry].
    + simpl in Hy. congruence.
  - destruct (mapR_Err_exists _ _ _ Hm) as ([k' f'] & _ & He').
    destruct (field_get_err _ _ _ He') as [m ->]. eauto.
Qed.

(** A plain field passed to a successful constructor call reads back the
    value passed (its result, if callable). *)
Theorem construct_reads_back (c : EClass) (kw : gmap string val) (i : Inst) (k : string)
    (f : Field) (v : val) :
  class_wf c -> construct c kw = Ok i -> cls_fields c !! k = Some f ->
  (f_kind f = KInt \/ f_kind f = KString \/ f_kind f = KNumber) ->
  kw !! k = Some v -> call v <> VNone -> getattr i k = Ok (call v).
Proof.
  intros Hwf Hc Hk Hkind Hv Hnn.
  destruct (construct_shape _ _ _ Hc) as (_ & Hcls & [u Hse] & _).
  destruct (set_each_last (registry c) kw ∅ (inst_dict i) u k f v) as (d1 & d2 & Hs & Hd).
  { intros k' f' Hin. apply Hwf, in_registry, Hin. }
  { apply NoDup_fst_map_to_list. }
  { exact Hse. }
  { by apply in_registry. }
  { exact Hv. }
  rewrite (plain_set_store f k v d1 d2 (Hwf _ _ Hk) Hkind Hs Hnn), lookup_insert_eq in Hd.
  unfold getattr. rewrite Hcls, Hk. unfold field_get.
  destruct Hkind as [Hk'|[Hk'|Hk']]; rewrite Hk'; unfold base_get, field_name;
    rewrite (Hwf _ _ Hk); simpl; rewrite Hd; reflexivity.
Qed.

(** *** Assignment, equality, [create_from_objects] *)

(** [setattr] never changes the class of an instance nor any entry of
    its [__dict__] other than the one assigned, and a failed assignment
    changes nothing. *)
Theorem setattr_frame (i : Inst) (k : string) (v : val) (i' : Inst) (r : result unit) :
  class_wf (inst_cls i) -> setattr i k v = (i', r) ->
  inst_cls i' = inst_cls i /\
  (forall k', k' <> k -> inst_dict i' !! k' = inst_dict i !! k') /\
  (forall e, r = Err e -> inst_dict i' = inst_dict i).
Proof.
  intros Hwf. unfold setattr.
  destruct (cls_fields (inst_cls i) !! k) as [f|] eqn:Hk.
  - destruct (field_set f v (inst_dict i)) as [d' r'] eqn:Hs.
    intros H; injection H as <- <-. simpl. split; [reflexivity|]. split.
    + intros k' Hne. eapply field_set_only; [exact Hs|apply Hwf; exact Hk|exact Hne].
    + intros e ->. eapply field_set_err; exact Hs.
  - unfold modify. intros H; injection H as <- <-. simpl. split; [reflexivity|]. split.
    + intros k' Hne. apply lookup_insert_ne. congruence.
    + intros e He. discriminate He.
Qed.

Lemma hashable_py_eq (x y : val) : py_eq x y = true -> hashable x = hashable y.
Proof.
  revert x y. fix IH 1. intros x y.
  destruct x, y; simpl; intros H; try reflexivity; try discriminate H.
  revert l0 H. induction l as [|u l IHl]; intros [|w m] H; simpl in *;
    try reflexivity; try discriminate H.
  apply andb_prop in H as [H1 H2]. rewrite (IH u w H1). f_equal. apply IHl. exact H2.
Qed.

(** [__eq__] and [__hash__] agree: two instances of the same class that
    compare equal have the same hash, provided [hash] agrees with [==]
    on the values fields return. *)
Theorem eq_implies_same_hash (a b : Inst) :
  (forall x y, py_eq x y = true -> py_hash x = py_hash y) ->
  inst_cls a = inst_cls b -> entity_eq a b = Ok true -> entity_hash a = entity_hash b.
Proof.
  intros Hh Hc. unfold entity_eq, entity_hash. rewrite <- Hc, Pos.eqb_refl. simpl.
  rewrite eq_all_true. generalize (map fst (registry (inst_cls a))) as ks.
  intros ks H. generalize 0%Z as acc.
  induction ks as [|k ks IH]; intros acc; simpl; [reflexivity|].
  destruct (H k (or_introl eq_refl)) as (v1 & v2 & E1 & E2 & E3).
  unfold getattr_default. rewrite E1, E2. simpl.
  rewrite (hashable_py_eq _ _ E3).
  destruct (hashable v2); [|reflexivity].
  rewrite (Hh _ _ E3). apply IH. intros k' Hk'. apply H. right. exact Hk'.
Qed.

(** [create_from_objects] converts the value it finds for an enum field
    with [E(value)] outside any [try]: a non-[None] value that is not a
    member and equals no member's value raises the enum's plain
    [ValueError], not a [ValidationError] (when no override is named
    [cls]). *)
Theorem create_from_objects_enum_unmatched (c : EClass) (objects : list source)
    (ov : gmap string val) (k : string) (f : Field) (e : enum_class) :
  cls_fields c !! k = Some f -> f_kind f = KEnum e ->
  find_or_none k (AttrDict ov :: objects) <> VNone ->
  isinstance (find_or_none k (AttrDict ov :: objects)) (TEnum e) = false ->
  (forall n r, In (n, r) (e_members e) ->
     py_eq r (find_or_none k (AttrDict ov :: objects)) = false) ->
  ov !! "cls" = None ->
  exists msg, create_from_objects c objects ov = Err (ValueError msg).
Proof.
  intros Hk Hke Hv Hi Hm Hcls. unfold create_from_objects, init_vars_of. rewrite Hcls.
  set (w := find_or_none k (AttrDict ov :: objects)) in *.
  assert (Hx : exists x, enum_call e w = Err x).
  { unfold enum_call. rewrite Hi.
    destruct (List.find (fun m => py_eq (snd m) w) (e_members e)) as [[n r]|] eqn:Hf.
    - apply find_some in Hf as [Hin Hp]. simpl in Hp. rewrite (Hm n r Hin) in Hp. discriminate Hp.
    - eauto. }
  destruct Hx as [x Hx].
  destruct (collect_enum_err (AttrDict ov :: objects) (registry c) ∅ k f e x) as [msg Hc].
  - by apply in_registry.
  - exact Hke.
  - change (is_none w = false). clearbody w. destruct w; try reflexivity. contradiction.
  - exact Hx.
  - rewrite Hc. simpl. eauto.
Qed.

End Model.

(** * Examples

    The properties above at concrete classes, and the runs on which the
    code and the descriptions of it part ways. *)

Lemma registry_Forall (c : EClass) (P : string -> Field -> Prop) :
  Forall (fun kf => P kf.1 kf.2) (registry c) ->
  forall k f, cls_fields c !! k = Some f -> P k f.
Proof.
  intros H k f Hk. rewrite Forall_forall in H. apply (H (k, f)).
  apply list_elem_of_In, in_registry, Hk.
Qed.

(** A property of every field of a concrete class, field by field. *)
Ltac forall_cases :=
  repeat match goal with
         | |- Forall _ (_ :: _) => constructor
         | |- Forall _ [] => constructor
         end.
Ltac registry_check :=
  lazymatch goal with
  | |- forall k f, cls_fields ?c !! k = Some f -> @?P k f => apply (registry_Forall c P)
  end; vm_compute; forall_cases; vm_compute.

Lemma class_wf_Truck : class_wf Truck.
Proof. unfold class_wf. registry_check; reflexivity. Qed.

Lemma enum_wf_Color : enum_wf Color.
Proof.
  split.
  - intros i j a b Ha Hb Heq.
    destruct i as [|[|[|i]]]; destruct j as [|[|[|j]]]; cbn in Ha, Hb; try discriminate;
      injection Ha as <-; injection Hb as <-; vm_compute in Heq; first [reflexivity|discriminate].
  - intros n r H. cbn in H. destruct H as [H|[H|[H|[]]]]; injection H as <- <-; reflexivity.
Qed.

(** C1 at [Truck(color=0, weight=44.4, wheels=18)]. *)
Lemma dump_exact_witness :
  exists i, construct demo_parse demo_iso Truck truck_kw = Ok i /\
  exists m, dump demo_iso i = Ok m /\
    forall k v, m !! k = Some v <->
      (exists f, cls_fields (inst_cls i) !! k = Some f /\
                 f_in_dump f = true /\ f_required f = true) /\
      getattr demo_iso i k = Ok v /\ v <> VNone.
Proof.
  pose (i := match construct demo_parse demo_iso Truck truck_kw with
             | Ok i => i | Err _ => mk_Inst Truck ∅ end).
  assert (Hc : construct demo_parse demo_iso Truck truck_kw = Ok i) by (vm_compute; reflexivity).
  exists i. split; [exact Hc|].
  apply (dump_exact demo_parse demo_iso demo_hash).
  - apply (live_new demo_parse demo_iso Truck truck_kw). exact Hc.
  - assert (Hcls : inst_cls i = Truck) by (vm_compute; reflexivity).
    rewrite Hcls. exact class_wf_Truck.
Defined.

(** C2 at [class Bad(Entity): count = IntField(default="x")]. *)
Lemma define_class_rejects_invalid_default_witness :
  exists e, define_class demo_parse 5 "Bad" None [("count", bad_default_args)] = Err e.
Proof.
  apply (define_class_rejects_invalid_default demo_parse 5 "Bad" None
           [("count", bad_default_args)] "count" bad_default_args).
  - left. reflexivity.
  - cbv. discriminate.
  - intros d Hd.
    assert (E : pre_convert demo_parse (field_base bad_default_args) (fa_default bad_default_args)
                = Ok (VStr "x")) by (vm_compute; reflexivity).
    rewrite E in Hd. injection Hd as <-. eexists. vm_compute. reflexivity.
Defined.

(** C3: [class Opt(Entity): x = IntField(required=False)]; [Opt(x=1)]
    raises [TypeError]. *)
Lemma opt_construct_error :
  construct demo_parse demo_iso Opt (<["x" := VInt 1]> ∅) =
  Err (TypeError "reduce() of empty sequence with no initial value").
Proof. vm_compute. reflexivity. Qed.

Lemma no_required_never_constructs_witness :
  (forall k f, cls_fields Opt !! k = Some f -> f_required f = false) /\
  forall i, construct demo_parse demo_iso Opt (<["x" := VInt 1]> ∅) <> Ok i.
Proof.
  assert (H : forall k f, cls_fields Opt !! k = Some f -> f_required f = false)
    by (registry_check; reflexivity).
  split; [exact H|].
  apply (no_required_never_constructs demo_parse demo_iso Opt _ H).
Defined.

(** C4: [Pair(a=1, b=2)] dumps [{"a": 1}], which [Pair.load] refuses. *)
Lemma dump_omits_required_counterexample :
  exists i m,
    construct demo_parse demo_iso Pair (list_to_map [("a", VInt 1); ("b", VInt 2)]) = Ok i /\
    dump demo_iso i = Ok m /\
    load demo_parse demo_iso Pair m =
      Err (ValidationError None None None (Some "A value for b has not been set")).
Proof.
  do 2 eexists. split; [vm_compute; reflexivity|].
  split; [vm_compute; reflexivity|]. vm_compute. reflexivity.
Qed.

(** C4 at [Truck(color=0, weight=44.4, wheels=18)]. *)
Lemma load_dump_roundtrip_witness :
  exists i, construct demo_parse demo_iso Truck truck_kw = Ok i /\
  exists m i', dump demo_iso i = Ok m /\ load demo_parse demo_iso Truck m = Ok i' /\
    forall k f v, cls_fields Truck !! k = Some f -> f_required f = true ->
      f_in_dump f = true -> getattr demo_iso i k = Ok v -> v <> VNone ->
      getattr demo_iso i' k = Ok v.
Proof.
  pose (i := match construct demo_parse demo_iso Truck truck_kw with
             | Ok i => i | Err _ => mk_Inst Truck ∅ end).
  assert (Hc : construct demo_parse demo_iso Truck truck_kw = Ok i) by (vm_compute; reflexivity).
  exists i. split; [exact Hc|].
  apply (load_dump_roundtrip demo_parse demo_iso demo_hash Truck truck_kw).
  - exact class_wf_Truck.
  - unfold defaults_ok. registry_check; intros Hd; first [discriminate Hd|split; [reflexivity|split; exact I]].
  - vm_compute. reflexivity.
  - intros k f e Hk. revert e. revert k f Hk.
    registry_check; intros e He; try discriminate He. injection He as <-. exact enum_wf_Color.
  - intros k f Hk. revert k f Hk. registry_check; intros Hd; discriminate Hd.
  - intros k f e n r Hk. revert e n r. revert k f Hk.
    registry_check; intros e n r He Hkw; first [discriminate He|discriminate Hkw].
  - exact Hc.
  - registry_check; intros _ [Hd|Hg]; first [reflexivity|discriminate Hd|discriminate Hg].
Defined.

(** C5 at [Truck.create_from_objects(o1, o2, wheels=6)] and [weight]. *)
Lemma create_from_objects_priority_witness :
  exists iv f, init_vars_of Truck sources_demo overrides_demo = Ok iv /\
  cls_fields Truck !! "weight" = Some f /\
  let v := first_non_null "weight" (AttrDict overrides_demo :: sources_demo) in
  (is_none v = false ->
     (is_enum f = false -> iv !! "weight" = Some v) /\
     (forall e, f_kind f = KEnum e -> exists w, enum_call e v = Ok w /\ iv !! "weight" = Some w)) /\
  (is_none v = true -> f_required f = false ->
     iv !! "weight" = None /\
     forall i, class_wf Truck ->
       create_from_objects demo_parse demo_iso Truck sources_demo overrides_demo = Ok i ->
       inst_dict i !! "weight" = None).
Proof.
  do 2 eexists. split; [vm_compute; reflexivity|]. split; [vm_compute; reflexivity|].
  apply (create_from_objects_priority demo_parse demo_iso demo_hash);
    vm_compute; reflexivity.
Defined.

(** C6: a callable is called before the type check, so [IntField]
    accepts a function returning an int. *)
Lemma callable_accepted_counterexample :
  isinstance (VFun 1 (VInt 5)) TInts = false /\
  exists i, construct demo_parse demo_iso Truck truck_kw = Ok i /\
    snd (setattr demo_parse i "wheels" (VFun 1 (VInt 5))) = Ok tt /\
    getattr demo_iso (fst (setattr demo_parse i "wheels" (VFun 1 (VInt 5)))) "wheels" =
      Ok (VInt 5).
Proof.
  split; [reflexivity|]. eexists. split; [vm_compute; reflexivity|].
  split; vm_compute; reflexivity.
Qed.

(** C6 at [x = IntField(required=False)] holding [1]. *)
Lemma assignment_validation_witness :
  field_set demo_parse (named_field KInt "x" VNone false true) VNone (<["x" := VInt 1]> ∅) =
    (delete "x" (<["x" := VInt 1]> ∅), Ok tt) /\
  field_set demo_parse (named_field KInt "x" VNone false true) (VStr "s") (<["x" := VInt 1]> ∅) =
    (<["x" := VInt 1]> ∅, Err (ValidationError (Some "x") (Some (VStr "s")) (Some TInts) None)).
Proof.
  destruct (assignment_validation demo_parse (named_field KInt "x" VNone false true) "x"
              (<["x" := VInt 1]> ∅) eq_refl) as (_ & H2 & _ & _ & _ & H6).
  split; [apply H6; reflexivity|].
  apply (H2 (VStr "s") (VStr "s")); [reflexivity|reflexivity|].
  intros [Hn _]. discriminate.
Defined.

(** C7: a validator that refuses [Color.red] makes [color = 2] raise. *)
Lemma validator_rejects_member_counterexample :
  field_set demo_parse picky_color (VInt 2) ∅ =
    (∅, Err (ValidationError (Some "color") (Some (VMember "Color" "red" (VInt 2))) None None)) /\
  ~ exists d, field_set demo_parse picky_color (VInt 2) ∅ = (d, Ok tt).
Proof.
  assert (H : field_set demo_parse picky_color (VInt 2) ∅ =
    (∅, Err (ValidationError (Some "color") (Some (VMember "Color" "red" (VInt 2))) None None)))
    by (vm_compute; reflexivity).
  split; [exact H|]. intros [d Hd]. rewrite H in Hd. discriminate.
Qed.

(** C7 at [Truck.color = 2]. *)
Lemma enum_field_set_raw_witness :
  exists m r, In (m, r) (e_members Color) /\ py_eq r (VInt 2) = true /\
    field_set demo_parse (named_field (KEnum Color) "color" VNone true true) (VInt 2) ∅ =
      (<["color" := VMember (e_name Color) m r]> ∅, Ok tt) /\
    field_get demo_iso (named_field (KEnum Color) "color" VNone true true)
      (<["color" := VMember (e_name Color) m r]> ∅) = Ok r.
Proof.
  destruct (enum_field_set_raw demo_parse demo_iso (named_field (KEnum Color) "color" VNone true true)
              Color "color" (VInt 2) ∅ eq_refl eq_refl ltac:(discriminate) eq_refl) as [H1 _].
  apply H1.
  - exists "red", (VInt 2). split; [right; right; left; reflexivity|reflexivity].
  - intros w _. exact I.
Defined.

(** C8: [Tile(shape=[4])] is built, but hashing it raises: the value
    retrieved for [shape] is the list [[4]]. *)
Lemma unhashable_value_counterexample :
  exists i, construct demo_parse demo_iso Tile (<["shape" := VList [VInt 4]]> ∅) = Ok i /\
    entity_hash demo_iso demo_hash i = Err (TypeError "unhashable type: 'list'").
Proof. eexists. split; [vm_compute; reflexivity|vm_compute; reflexivity]. Qed.

(** C9: [Truck.load] accepts [truck_kw] but raises [TypeError] once a
    key [self], which is no field of [Truck], is added. *)
Theorem load_self_key_rejected :
  (exists i, load demo_parse demo_iso Truck truck_kw = Ok i) /\
  load demo_parse demo_iso Truck (<["self" := VInt 0]> truck_kw) =
    Err (TypeError "__init__() got multiple values for keyword argument 'self'").
Proof. split; [eexists; vm_compute; reflexivity|vm_compute; reflexivity]. Qed.

(** C10: with [Maybe.unknown = None], a required [EnumField(Maybe)]
    with no value anywhere gets [Maybe.unknown]: an instance is built. *)
Lemma enum_none_member_counterexample :
  exists i, create_from_objects demo_parse demo_iso Answer [] ∅ = Ok i /\
    getattr demo_iso i "a" = Ok VNone.
Proof. eexists. split; [vm_compute; reflexivity|vm_compute; reflexivity]. Qed.

(** C10 at [Truck.create_from_objects(o)] where [o.color] is [None]. *)
Lemma create_from_objects_enum_missing_witness :
  exists msg, create_from_objects demo_parse demo_iso Truck
                [AttrDict (<["color" := VNone]> ∅)] ∅ = Err (ValueError msg).
Proof.
  apply (create_from_objects_enum_missing demo_parse demo_iso Truck
           [AttrDict (<["color" := VNone]> ∅)] ∅ "color"
           (named_field (KEnum Color) "color" VNone true true) Color).
  - vm_compute. reflexivity.
  - reflexivity.
  - reflexivity.
  - intros m Hm v Hv. destruct Hm as [<-|[<-|[]]].
    + assert (E : AttrDict ∅ "color" = None) by (vm_compute; reflexivity).
      rewrite E in Hv. discriminate.
    + assert (E : AttrDict (<["color" := VNone]> ∅) "color" = Some VNone)
        by (vm_compute; reflexivity).
      rewrite E in Hv. injection Hv as <-. reflexivity.
  - intros n r H. cbn in H. destruct H as [H|[H|[H|[]]]]; injection H as <- <-; reflexivity.
  - apply lookup_empty.
Defined.

Lemma class_wf_Pet : class_wf Pet.
Proof. unfold class_wf. registry_check; reflexivity. Qed.

(** X2 at [legs = IntField(4)] assigned a callable returning [3]. *)
Lemma plain_set_get_witness :
  <["legs" := VFun 7 (VInt 3)]> ∅ = <["legs" := VFun 7 (VInt 3)]> (∅ : store) /\
  field_get demo_iso (named_field KInt "legs" (VInt 4) true true)
    (<["legs" := VFun 7 (VInt 3)]> ∅) = Ok (call (VFun 7 (VInt 3))).
Proof.
  apply (plain_set_get demo_parse demo_iso demo_hash (named_field KInt "legs" (VInt 4) true true)
           "legs" (VFun 7 (VInt 3)) ∅ (<["legs" := VFun 7 (VInt 3)]> ∅)).
  - reflexivity.
  - left. reflexivity.
  - vm_compute. reflexivity.
  - discriminate.
Defined.

(** X3 at [when = DateField()] assigned [datetime(2016, 1, 1)]. *)
Lemma date_set_get_witness :
  <["when" := VDate new_year]> ∅ = <["when" := VDate new_year]> (∅ : store) /\
  field_get demo_iso when_field (<["when" := VDate new_year]> ∅) =
    Ok (VStr (demo_iso new_year)).
Proof.
  apply (date_set_get demo_parse demo_iso demo_hash when_field "when" (VDate new_year) new_year ∅
           (<["when" := VDate new_year]> ∅)).
  - reflexivity.
  - reflexivity.
  - left. reflexivity.
  - vm_compute. reflexivity.
Defined.

(** X4 at Truck's [color] holding [Color.blue]: assigning back the value
    read, [0], changes nothing. *)
Lemma reassign_read_value_witness :
  field_set demo_parse (named_field (KEnum Color) "color" VNone true true) (VInt 0)
    (<["color" := VMember "Color" "blue" (VInt 0)]> ∅) =
  (<["color" := VMember "Color" "blue" (VInt 0)]> ∅, Ok tt).
Proof.
  apply (reassign_read_value demo_parse demo_iso
           (named_field (KEnum Color) "color" VNone true true) "color"
           (<["color" := VMember "Color" "blue" (VInt 0)]> ∅)
           (VMember "Color" "blue" (VInt 0)) (VInt 0)).
  - reflexivity.
  - vm_compute. reflexivity.
  - split; [reflexivity|split; [exact I|]]. cbn.
    exists "blue", (VInt 0). split; [reflexivity|left; reflexivity].
  - vm_compute. reflexivity.
  - discriminate.
  - intros H. discriminate H.
  - intros e He. injection He as <-. exact enum_wf_Color.
Defined.

(** X5 at [tags = ListField(basestring)] assigned ["ab"]. *)
Lemma list_set_get_witness :
  Forall (fun x => isinstance x TString = true) [VStr "a"; VStr "b"] /\
  <["tags" := VTuple [VStr "a"; VStr "b"]]> ∅ =
    <["tags" := VTuple [VStr "a"; VStr "b"]]> (∅ : store) /\
  field_get demo_iso tags_field (<["tags" := VTuple [VStr "a"; VStr "b"]]> ∅) =
    Ok (VTuple [VStr "a"; VStr "b"]).
Proof.
  apply (list_set_get demo_parse demo_iso demo_hash tags_field "tags" TString (VStr "ab")
           [VStr "a"; VStr "b"] ∅ (<["tags" := VTuple [VStr "a"; VStr "b"]]> ∅)).
  - reflexivity.
  - reflexivity.
  - discriminate.
  - reflexivity.
  - vm_compute. reflexivity.
Defined.

(** X6 at [tags = ListField(basestring)] assigned [3]. *)
Lemma list_set_not_iterable_witness :
  field_set demo_parse tags_field (VInt 3) ∅ = (∅, Err (TypeError "object is not iterable")) /\
  exists msg, TypeError "object is not iterable" = TypeError msg.
Proof.
  apply (list_set_not_iterable demo_parse tags_field TString (VInt 3) ∅).
  - reflexivity.
  - discriminate.
  - reflexivity.
Defined.

(** X8 at [class Lorry(Truck)], which overrides [wheels] and adds [cargo]. *)
Lemma define_class_registry_witness :
  exists c, define_class demo_parse 6 "Lorry" (Some Truck) lorry_body = Ok c /\
  cls_id c = 6%positive /\ cls_name c = "Lorry" /\
  forall k, match (list_to_map (List.rev lorry_body) : gmap string field_args) !! k with
            | Some a => exists f, field_init demo_parse a = Ok f /\ cls_fields c !! k = Some (set_name f k)
            | None => cls_fields c !! k = cls_fields Truck !! k
            end.
Proof.
  pose (c := match define_class demo_parse 6 "Lorry" (Some Truck) lorry_body with
             | Ok c => c | Err _ => Truck end).
  assert (Hc : define_class demo_parse 6 "Lorry" (Some Truck) lorry_body = Ok c)
    by (vm_compute; reflexivity).
  exists c. split; [exact Hc|].
  apply (define_class_registry demo_parse 6 "Lorry" (Some Truck) lorry_body c). exact Hc.
Defined.

(** X9 at [Pet(name="Rex")]: [age] was not given and has no default. *)
Lemma construct_unset_read_witness :
  exists i, construct demo_parse demo_iso Pet pet_kw = Ok i /\
  (f_default (named_field KInt "age" VNone false true) = VNone ->
     getattr demo_iso i "age" =
       Err (AttributeError ("A value for " ++ "age" ++ " has not been set"))) /\
  (is_none (f_default (named_field KInt "age" VNone false true)) = false ->
     (f_kind (named_field KInt "age" VNone false true) = KInt \/
      f_kind (named_field KInt "age" VNone false true) = KString \/
      f_kind (named_field KInt "age" VNone false true) = KNumber) ->
     getattr demo_iso i "age" = Ok (call (f_default (named_field KInt "age" VNone false true)))).
Proof.
  pose (i := match construct demo_parse demo_iso Pet pet_kw with
             | Ok i => i | Err _ => mk_Inst Pet ∅ end).
  assert (Hc : construct demo_parse demo_iso Pet pet_kw = Ok i) by (vm_compute; reflexivity).
  exists i. split; [exact Hc|].
  apply (construct_unset_read demo_parse demo_iso Pet pet_kw i "age").
  - exact class_wf_Pet.
  - exact Hc.
  - vm_compute. reflexivity.
  - vm_compute. reflexivity.
Defined.

(** X10 at [Truck(color=0, weight=44.4, wheels=18)]. *)
Lemma construct_stored_witness :
  exists i, construct demo_parse demo_iso Truck truck_kw = Ok i /\
  inst_cls i = Truck /\
  forall k s, inst_dict i !! k = Some s ->
    exists f v, cls_fields Truck !! k = Some f /\ truck_kw !! k = Some v /\
                wf_value f (call s).
Proof.
  pose (i := match construct demo_parse demo_iso Truck truck_kw with
             | Ok i => i | Err _ => mk_Inst Truck ∅ end).
  assert (Hc : construct demo_parse demo_iso Truck truck_kw = Ok i) by (vm_compute; reflexivity).
  exists i. split; [exact Hc|].
  apply (construct_stored demo_parse demo_iso demo_hash Truck truck_kw i).
  - exact class_wf_Truck.
  - intros k f e n r Hk. revert e n r. revert k f Hk.
    registry_check; intros e n r He Hkw; first [discriminate He|discriminate Hkw].
  - exact Hc.
Defined.

(** X11 at [Truck(color=0, weight="heavy", wheels=18)]. *)
Lemma construct_invalid_value_witness :
  (exists e, construct demo_parse demo_iso Truck (<["weight" := VStr "heavy"]> truck_kw) = Err e) /\
  forall i, construct demo_parse demo_iso Truck (<["weight" := VStr "heavy"]> truck_kw) <> Ok i.
Proof.
  split; [eexists; vm_compute; reflexivity|].
  apply (construct_invalid_value demo_parse demo_iso Truck (<["weight" := VStr "heavy"]> truck_kw)
           "weight" (named_field KNumber "weight" VNone true true) (VStr "heavy")
           (ValidationError (Some "weight") (Some (VStr "heavy")) (Some TNumber) None)).
  - vm_compute. reflexivity.
  - vm_compute. reflexivity.
  - vm_compute. reflexivity.
Defined.

(** X12 at [Pet(age=3)]: the required [name] is missing. *)
Lemma construct_missing_required_witness :
  exists m, construct demo_parse demo_iso Pet (<["age" := VInt 3]> ∅) =
            Err (ValidationError None None None (Some m)).
Proof.
  apply (construct_missing_required demo_parse demo_iso Pet (<["age" := VInt 3]> ∅) "name"
           (named_field KString "name" VNone true true)).
  - exact class_wf_Pet.
  - vm_compute. reflexivity.
  - intros k' f' v Hk'. revert v. revert k' f' Hk'.
    registry_check; intros v Hv; first [discriminate Hv|injection Hv as <-; vm_compute; reflexivity].
  - vm_compute. reflexivity.
  - reflexivity.
  - reflexivity.
  - vm_compute. reflexivity.
Defined.

(** X13 at [Truck(color=0, weight=44.4, wheels=18)] and [weight]. *)
Lemma construct_reads_back_witness :
  exists i, construct demo_parse demo_iso Truck truck_kw = Ok i /\
  getattr demo_iso i "weight" = Ok (call (VFloat (444 # 10))).
Proof.
  pose (i := match construct demo_parse demo_iso Truck truck_kw with
             | Ok i => i | Err _ => mk_Inst Truck ∅ end).
  assert (Hc : construct demo_parse demo_iso Truck truck_kw = Ok i) by (vm_compute; reflexivity).
  exists i. split; [exact Hc|].
  apply (construct_reads_back demo_parse demo_iso demo_hash Truck truck_kw i "weight"
           (named_field KNumber "weight" VNone true true)).
  - exact class_wf_Truck.
  - exact Hc.
  - vm_compute. reflexivity.
  - right. right. reflexivity.
  - vm_compute. reflexivity.
  - discriminate.
Defined.

(** X14 at [truck.wheels = "x"], which raises. *)
Lemma setattr_frame_witness :
  exists i, construct demo_parse demo_iso Truck truck_kw = Ok i /\
  let p := setattr demo_parse i "wheels" (VStr "x") in
  inst_cls p.1 = inst_cls i /\
  (forall k', k' <> "wheels" -> inst_dict p.1 !! k' = inst_dict i !! k') /\
  (forall e, p.2 = Err e -> inst_dict p.1 = inst_dict i).
Proof.
  pose (i := match construct demo_parse demo_iso Truck truck_kw with
             | Ok i => i | Err _ => mk_Inst Truck ∅ end).
  assert (Hc : construct demo_parse demo_iso Truck truck_kw = Ok i) by (vm_compute; reflexivity).
  exists i. split; [exact Hc|]. intros p.
  apply (setattr_frame demo_parse i "wheels" (VStr "x") p.1 p.2).
  - assert (Hcls : inst_cls i = Truck) by (vm_compute; reflexivity).
    rewrite Hcls. exact class_wf_Truck.
  - apply surjective_pairing.
Defined.

(** X15 at [Truck(color=0, ...)] and [Truck(color=Color.blue, ...)]. *)
Lemma eq_implies_same_hash_witness :
  exists a b, construct demo_parse demo_iso Truck truck_kw = Ok a /\
  construct demo_parse demo_iso Truck
    (<["color" := VMember "Color" "blue" (VInt 0)]> truck_kw) = Ok b /\
  entity_eq demo_iso a b = Ok true /\
  entity_hash demo_iso demo_hash a = entity_hash demo_iso demo_hash b.
Proof.
  pose (a := match construct demo_parse demo_iso Truck truck_kw with
             | Ok i => i | Err _ => mk_Inst Truck ∅ end).
  pose (b := match construct demo_parse demo_iso Truck
                     (<["color" := VMember "Color" "blue" (VInt 0)]> truck_kw) with
             | Ok i => i | Err _ => mk_Inst Truck ∅ end).
  assert (Ha : construct demo_parse demo_iso Truck truck_kw = Ok a) by (vm_compute; reflexivity).
  assert (Hb : construct demo_parse demo_iso Truck
                 (<["color" := VMember "Color" "blue" (VInt 0)]> truck_kw) = Ok b)
    by (vm_compute; reflexivity).
  assert (Heq : entity_eq demo_iso a b = Ok true) by (vm_compute; reflexivity).
  exists a, b. split; [exact Ha|]. split; [exact Hb|]. split; [exact Heq|].
  apply (eq_implies_same_hash demo_iso demo_hash a b).
  - intros x y _. reflexivity.
  - vm_compute. reflexivity.
  - exact Heq.
Defined.

(** X16 at [Truck.create_from_objects(color=7)]. *)
Lemma create_from_objects_enum_unmatched_witness :
  exists msg, create_from_objects demo_parse demo_iso Truck [] (<["color" := VInt 7]> ∅) =
              Err (ValueError msg).
Proof.
  assert (E : find_or_none "color" [AttrDict (<["color" := VInt 7]> ∅)] = VInt 7)
    by (vm_compute; reflexivity).
  apply (create_from_objects_enum_unmatched demo_parse demo_iso Truck [] (<["color" := VInt 7]> ∅)
           "color" (named_field (KEnum Color) "color" VNone true true) Color).
  - vm_compute. reflexivity.
  - reflexivity.
  - rewrite E. discriminate.
  - rewrite E. reflexivity.
  - intros n r Hin. rewrite E. cbn in Hin.
    destruct Hin as [H|[H|[H|[]]]]; injection H as <- <-; reflexivity.
  - vm_compute. reflexivity.
Defined.

(** X17 at [Truck(color=0, weight=44.4, wheels=18)] with and without an
    extra [cargo=1]. *)
Lemma construct_unknown_keys_witness :
  construct demo_parse demo_iso Truck truck_kw =
  construct demo_parse demo_iso Truck (<["cargo" := VInt 1]> truck_kw).
Proof.
  apply (construct_unknown_keys demo_parse demo_iso Truck).
  - intros k Hk.
    assert (E : map fst (registry Truck) = ["weight"; "wheels"; "color"])
      by (vm_compute; reflexivity).
    rewrite E in Hk. rewrite lookup_insert_ne; [reflexivity|].
    intros <-. destruct Hk as [H|[H|[H|[]]]]; discriminate H.
  - vm_compute. reflexivity.
  - vm_compute. reflexivity.
Defined.
